(** * Failover automation for the Jupiter infrastructure

    A shallow embedding of the three programs of the repository

    - [failover-automation.py]  (the manual command-line tool),
    - [failover-fixed.py]       (the alarm-triggered handler),
    - [quick-fix-lambda.py]     (the permissive handler),

    together with the properties of their orchestration sequences.

    The programs are sequences of calls to the cloud provider's SDK with a
    few conditionals.  They are embedded in a state-and-exception monad
    over a [World] that holds the provider's state, the log of the SDK
    calls issued so far and the lines printed so far.  The SDK clients are
    interfaces (type classes); every theorem holds for every
    implementation of them. *)

From Stdlib Require Import ZArith Ascii String List Lia.
From stdpp Require Import base option strings list gmap pretty.

Local Open Scope Z_scope.

(** ** Python strings *)

Module Text.

(** [str.lower] and [str.upper] on one character (ASCII letters). *)
Definition lower_ascii (c : ascii) : ascii :=
  let n := N_of_ascii c in
  if ((65 <=? n) && (n <=? 90))%N then ascii_of_N (n + 32) else c.

Definition upper_ascii (c : ascii) : ascii :=
  let n := N_of_ascii c in
  if ((97 <=? n) && (n <=? 122))%N then ascii_of_N (n - 32) else c.

Fixpoint map_string (f : ascii -> ascii) (s : string) : string :=
  match s with
  | EmptyString => EmptyString
  | String c s' => String (f c) (map_string f s')
  end.

Definition lower (s : string) : string := map_string lower_ascii s.
Definition upper (s : string) : string := map_string upper_ascii s.

(** [s.startswith(p)] *)
Fixpoint startswith (p s : string) : bool :=
  match p, s with
  | EmptyString, _ => true
  | String a p', String b s' => if Ascii.eqb a b then startswith p' s' else false
  | String _ _, EmptyString => false
  end.

(** [needle in hay] on strings: [needle] occurs in [hay] as a substring. *)
Fixpoint contains (needle hay : string) : bool :=
  startswith needle hay ||
  match hay with
  | EmptyString => false
  | String _ hay' => contains needle hay'
  end.

(** [s.split(sep)[0]] for a one-character separator: the text before the
    first occurrence of [sep] (all of [s] when there is none). *)
Fixpoint split_head (sep : ascii) (s : string) : string :=
  match s with
  | EmptyString => EmptyString
  | String c s' => if Ascii.eqb c sep then EmptyString else String c (split_head sep s')
  end.

(** [str * n] *)
Fixpoint repeat_string (s : string) (n : nat) : string :=
  match n with
  | O => EmptyString
  | S n' => s +:+ repeat_string s n'
  end.

(** The format specification [{s:w}] of an f-string on a string value:
    left-aligned, padded with spaces to width [w], never truncated. *)
Definition ljust (w : nat) (s : string) : string :=
  s +:+ repeat_string " " (w - String.length s).

(** Truthiness of a value that is a string or [None]. *)
Definition truthy (v : option string) : bool :=
  match v with
  | Some (String _ _) => true
  | _ => false
  end.

Definition newline : string := String (ascii_of_nat 10) EmptyString.

End Text.

(** ** JSON values (the event payloads)

    The values an event is made of.  Numbers are integers: the programs
    read no number of an event, they only serialize it. *)

Module Json.

#[warnings="-register-all"]
Inductive value : Type :=
| JNull
| JBool (b : bool)
| JNum (n : Z)
| JStr (s : string)
| JList (items : list value)
| JObj (fields : list (string * value)).

(** [d[key]] on a dict; [None] stands for the [KeyError]. *)
Fixpoint assoc (key : string) (fields : list (string * value)) : option value :=
  match fields with
  | [] => None
  | (k, v) :: rest => if String.eqb k key then Some v else assoc key rest
  end.

(** [v[key]] for a string key: defined on dicts only ([TypeError] on
    lists, strings and scalars, [KeyError] on a missing key). *)
Definition getitem (key : string) (v : value) : option value :=
  match v with
  | JObj fields => assoc key fields
  | _ => None
  end.

(** [v[0]]: the first item of a list, the first character of a string;
    a dict has no key [0] (its keys are strings); scalars are not
    subscriptable. *)
Definition getitem0 (v : value) : option value :=
  match v with
  | JList (x :: _) => Some x
  | JStr (String c _) => Some (JStr (String c EmptyString))
  | _ => None
  end.

(** [type(v).__name__] *)
Definition type_name (v : value) : string :=
  match v with
  | JNull => "NoneType"
  | JBool _ => "bool"
  | JNum _ => "int"
  | JStr _ => "str"
  | JList _ => "list"
  | JObj _ => "dict"
  end.

End Json.

(** ** The cloud provider's SDK *)

Module Sdk.

Record Instance := { InstanceId : string; StateName : string }.
Record Reservation := { Instances : list Instance }.
Record TargetGroup := { Port : option Z }.
Record WaiterConfig := { Delay : Z; MaxAttempts : Z }.

(** The two ways the programs call [describe_instances]. *)
Inductive DescribeRequest :=
| Filters (tag_name : string) (states : list string)
| InstanceIds (ids : list string).

(** What a call of the SDK does: it returns or it raises an exception
    with a message. *)
Inductive Reply (A : Type) :=
| Returns (a : A)
| Raises (msg : string).
Arguments Returns {A} a.
Arguments Raises {A} msg.

(** [ec2 = boto3.client('ec2')] over a provider state [Cloud]. *)
Class Ec2Client (Cloud : Type) := {
  describe_instances : DescribeRequest -> Cloud -> Reply (list Reservation) * Cloud;
  stop_instances : list string -> Cloud -> Reply unit * Cloud;
  start_instances : list string -> Cloud -> Reply unit * Cloud;
(** [ec2.get_waiter('instance_running').wait(InstanceIds, WaiterConfig)] *)
wait_instance_running : list string -> option WaiterConfig -> Cloud -> Reply unit * Cloud
}.

(** [elbv2 = boto3.client('elasticloadbalancing')] *)
Class Elbv2Client (Cloud : Type) := {
  deregister_targets : string -> list string -> Cloud -> Reply unit * Cloud;
  describe_target_groups : list string -> Cloud -> Reply (list TargetGroup) * Cloud;
  register_targets : string -> list (string * Z) -> Cloud -> Reply unit * Cloud
}.

(** The log of the calls issued. *)
Inductive Call :=
| DescribeInstances (req : DescribeRequest)
| StopInstances (ids : list string)
| StartInstances (ids : list string)
| WaitInstanceRunning (ids : list string) (cfg : option WaiterConfig)
| DeregisterTargets (group : string) (ids : list string)
| DescribeTargetGroups (groups : list string)
| RegisterTargets (group : string) (targets : list (string * Z)).

Inductive Outcome :=
| Returned
| Raised (msg : string).

Definition outcome_of {A} (r : Reply A) : Outcome :=
  match r with
  | Returns _ => Returned
  | Raises msg => Raised msg
  end.

(** The calls that change the provider's state or block on it: stop,
    start and wait on the compute side, deregister and register on the
    routing side. *)
Definition mutating (c : Call) : bool :=
  match c with
  | StopInstances _ | StartInstances _ | WaitInstanceRunning _ _
  | DeregisterTargets _ _ | RegisterTargets _ _ => true
  | DescribeInstances _ | DescribeTargetGroups _ => false
  end.

(** The calls of the routing-target API. *)
Definition routing (c : Call) : bool :=
  match c with
  | DeregisterTargets _ _ | DescribeTargetGroups _ | RegisterTargets _ _ => true
  | _ => false
  end.

End Sdk.

(** ** The monad of the programs *)

Module Run.
Import Sdk.

(** Python exceptions: the ones [except Exception] catches, with their
    [str(e)], and [SystemExit], which only a bare [except:] catches. *)
Inductive Exn :=
| PyException (msg : string)
| SystemExit (code : Z).

Inductive Res (A : Type) :=
| Ok (a : A)
| Raise (e : Exn).
Arguments Ok {A} a.
Arguments Raise {A} e.

Record World (Cloud : Type) := mkWorld {
  cloud : Cloud;
  calls : list (Call * Outcome);
  stdout : list string
}.
Arguments mkWorld {Cloud} _ _ _.
Arguments cloud {Cloud} _.
Arguments calls {Cloud} _.
Arguments stdout {Cloud} _.

Definition M (Cloud : Type) (A : Type) : Type := World Cloud -> Res A * World Cloud.

Section Monad.
Context {Cloud : Type}.

Definition ret {A} (a : A) : M Cloud A := fun w => (Ok a, w).

Definition bind {A B} (m : M Cloud A) (k : A -> M Cloud B) : M Cloud B :=
  fun w =>
    match m w with
    | (Ok a, w') => k a w'
    | (Raise e, w') => (Raise e, w')
    end.

End Monad.

#[global] Instance M_ret {Cloud} : MRet (M Cloud) := fun A => @ret Cloud A.
#[global] Instance M_bind {Cloud} : MBind (M Cloud) := fun A B k m => bind m k.

Section Statements.
Context {Cloud : Type}.

Definition raise {A} (e : Exn) : M Cloud A := fun w => (Raise e, w).

(** [print(line)] *)
Definition print (line : string) : M Cloud unit :=
  fun w => (Ok tt, mkWorld (cloud w) (calls w) (stdout w ++ [line])).

(** [sys.exit(code)] *)
Definition sys_exit {A} (code : Z) : M Cloud A := raise (SystemExit code).

(** [try: m  except Exception as e: h(str(e))] *)
Definition try_except {A} (m : M Cloud A) (h : string -> M Cloud A) : M Cloud A :=
  fun w =>
    match m w with
    | (Raise (PyException msg), w') => h msg w'
    | other => other
    end.

(** [l[0]], with Python's [IndexError] on the empty list. *)
Definition first {A} (l : list A) : M Cloud A :=
  match l with
  | x :: _ => mret x
  | [] => raise (PyException "list index out of range")
  end.

(** [for x in l: body(x)] *)
Fixpoint for_each {A} (l : list A) (body : A -> M Cloud unit) : M Cloud unit :=
  match l with
  | [] => mret tt
  | x :: rest => body x;; for_each rest body
  end.

(** One call of the SDK: run it on the provider's state, log it with
    its outcome, and turn a raised error into a Python exception. *)
Definition invoke {A} (c : Call) (f : Cloud -> Reply A * Cloud) : M Cloud A :=
  fun w =>
    let '(r, cl) := f (cloud w) in
    let w' := mkWorld cl (calls w ++ [(c, outcome_of r)]) (stdout w) in
    match r with
    | Returns a => (Ok a, w')
    | Raises msg => (Raise (PyException msg), w')
    end.

End Statements.

(** The exit status of the process that ran [m]: 0 on a normal return,
    the code of [sys.exit], 1 on an uncaught exception. *)
Definition exit_status {A} (r : Res A) : Z :=
  match r with
  | Ok _ => 0
  | Raise (SystemExit code) => code
  | Raise (PyException _) => 1
  end.

Section Clients.
Context {Cloud : Type}.

Definition ec2_describe_instances `{Ec2Client Cloud} (req : DescribeRequest)
  : M Cloud (list Reservation) :=
  invoke (DescribeInstances req) (describe_instances req).

Definition ec2_stop_instances `{Ec2Client Cloud} (ids : list string) : M Cloud unit :=
  invoke (StopInstances ids) (stop_instances ids).

Definition ec2_start_instances `{Ec2Client Cloud} (ids : list string) : M Cloud unit :=
  invoke (StartInstances ids) (start_instances ids).

Definition ec2_wait_instance_running `{Ec2Client Cloud}
    (ids : list string) (cfg : option WaiterConfig) : M Cloud unit :=
  invoke (WaitInstanceRunning ids cfg) (wait_instance_running ids cfg).

Definition elbv2_deregister_targets `{Elbv2Client Cloud}
    (group : string) (ids : list string) : M Cloud unit :=
  invoke (DeregisterTargets group ids) (deregister_targets group ids).

Definition elbv2_describe_target_groups `{Elbv2Client Cloud}
    (groups : list string) : M Cloud (list TargetGroup) :=
  invoke (DescribeTargetGroups groups) (describe_target_groups groups).

Definition elbv2_register_targets `{Elbv2Client Cloud}
    (group : string) (targets : list (string * Z)) : M Cloud unit :=
  invoke (RegisterTargets group targets) (register_targets group targets).

End Clients.

End Run.

(** ** failover-automation.py *)

Module Cli.
Import Text Sdk Run.

Section Program.
Context {Cloud : Type} `{Ec2Client Cloud}.

(** Get instance ID by Name tag *)
Definition get_instance_id (tag_name : string) : M Cloud (option string) :=
  response ← ec2_describe_instances (Filters tag_name ["running"; "stopped"]);
  match response with
  | r :: _ => i ← first (Instances r); mret (Some (InstanceId i))
  | [] => mret None
  end.

(** Failover from primary to backup *)
Definition failover (service : string) : M Cloud bool :=
  primary ← get_instance_id (service +:+ "-primary");
  backup ← get_instance_id (service +:+ "-backup");
  if negb (truthy primary) || negb (truthy backup) then
    print ("Error: Could not find instances for " +:+ service);;
    mret false
  else
    let primary := default "" primary in
    let backup := default "" backup in
    print ("Failover " +:+ service +:+ ":");;
    print ("  Stopping primary: " +:+ primary);;
    ec2_stop_instances [primary];;
    print ("  Starting backup: " +:+ backup);;
    ec2_start_instances [backup];;
    print ("  Waiting for " +:+ backup +:+ " to start...");;
    ec2_wait_instance_running [backup] None;;
    print ("  ✓ Failover complete for " +:+ service);;
    mret true.

(** Failback from backup to primary *)
Definition failback (service : string) : M Cloud bool :=
  primary ← get_instance_id (service +:+ "-primary");
  backup ← get_instance_id (service +:+ "-backup");
  if negb (truthy primary) || negb (truthy backup) then
    print ("Error: Could not find instances for " +:+ service);;
    mret false
  else
    let primary := default "" primary in
    let backup := default "" backup in
    print ("Failback " +:+ service +:+ ":");;
    print ("  Stopping backup: " +:+ backup);;
    ec2_stop_instances [backup];;
    print ("  Starting primary: " +:+ primary);;
    ec2_start_instances [primary];;
    print ("  Waiting for " +:+ primary +:+ " to start...");;
    ec2_wait_instance_running [primary] None;;
    print ("  ✓ Failback complete for " +:+ service);;
    mret true.

(** The expression
    [ec2.describe_instances(InstanceIds=[i])['Reservations'][0]['Instances'][0]['State']['Name']]
    of [status]. *)
Definition instance_state (instance_id : string) : M Cloud string :=
  response ← ec2_describe_instances (InstanceIds [instance_id]);
  r ← first response;
  i ← first (Instances r);
  mret (StateName i).

(** The body of the loop of [status]: the row of one service. *)
Definition status_row (service : string) : M Cloud unit :=
  primary ← get_instance_id (service +:+ "-primary");
  backup ← get_instance_id (service +:+ "-backup");
  p_state ← (if truthy primary then instance_state (default "" primary)
             else mret "not found");
  b_state ← (if truthy backup then instance_state (default "" backup)
             else mret "not found");
  (* Special case for NAT which has different naming *)
  b_state ← (if String.eqb service "nat" && negb (truthy backup) then
               backup ← get_instance_id "nat-secondary";
               if truthy backup then instance_state (default "" backup)
               else mret b_state
             else mret b_state);
  print (ljust 12 service +:+ " Primary: " +:+ ljust 10 p_state
         +:+ " Backup: " +:+ ljust 10 b_state).

(** Show status of all services *)
Definition status : M Cloud unit :=
  let services := ["signaling"; "coturn"; "frp"; "thingsboard"; "nat"] in
  print (newline +:+ "Service Status:");;
  print (repeat_string "-" 50);;
  for_each services status_row;;
  print (repeat_string "-" 50).

Definition usage : list string :=
  [ "Usage: python3 failover-automation.py <command> [service]";
    "Commands:";
    "  status              - Show status of all services";
    "  failover <service>  - Failover service to backup";
    "  failback <service>  - Failback service to primary";
    "  failover-all        - Failover all services";
    "  failback-all        - Failback all services";
    newline +:+ "Services: signaling, coturn, frp, thingsboard" ].

(** The [__main__] block; [argv] is [sys.argv]. *)
Definition main (argv : list string) : M Cloud unit :=
  if (length argv <? 2)%nat then
    for_each usage print;;
    sys_exit 1
  else
    let command := nth 1 argv "" in
    if String.eqb command "status" then
      status
    else if String.eqb command "failover" && (2 <? length argv)%nat then
      failover (nth 2 argv "");;
      status
    else if String.eqb command "failback" && (2 <? length argv)%nat then
      failback (nth 2 argv "");;
      status
    else if String.eqb command "failover-all" then
      for_each ["signaling"; "coturn"; "frp"; "thingsboard"]
               (fun service => failover service;; mret tt);;
      status
    else if String.eqb command "failback-all" then
      for_each ["signaling"; "coturn"; "frp"; "thingsboard"]
               (fun service => failback service;; mret tt);;
      status
    else
      print ("Invalid command: " +:+ command);;
      sys_exit 1.

End Program.
End Cli.

(** ** The event-driven handlers *)

Module Lambda.
Import Text Json.

(** What a handler returns: [{'statusCode': ..., 'body': ...}]. *)
Record Response := { statusCode : Z; body : string }.

(** The library functions the handlers use on events: [json.dumps],
    [json.loads] ([None] for the exception on malformed text) and the
    f-string rendering [str(v)] of a value. *)
Class Builtins := {
  json_dumps : value -> string;
  json_loads : string -> option value;
  py_str : value -> string
}.

(** [f"{v}"]: a string is rendered as itself. *)
Definition format_value `{Builtins} (v : value) : string :=
  match v with
  | JStr s => s
  | _ => py_str v
  end.

End Lambda.

(** ** failover-fixed.py *)

Module Fixed.
Import Text Json Sdk Run Lambda.

Section Program.
Context {Cloud : Type} `{Ec2Client Cloud} `{Elbv2Client Cloud} `{Builtins}.
(** [os.environ] *)
Variable environ : gmap string string.

(** The first [try] block up to the alarm name:
    [json.loads(event['Records'][0]['Sns']['Message']).get('AlarmName', '')].
    Its bare [except:] catches every failure, so [None] stands for
    any of them. *)
Definition parse_alarm_name (event : value) : option value :=
  records ← getitem "Records" event;
  record ← getitem0 records;
  sns ← getitem "Sns" record;
  message ← getitem "Message" sns;
  text ← (match message with JStr s => Some s | _ => None end);
  sns_message ← json_loads text;
  match sns_message with
  | JObj fields => Some (default (JStr "") (assoc "AlarmName" fields))
  | _ => None
  end.

(** [alarm_name.split('-')[0]]; a value that is not a string has no
    [split] (an [AttributeError], raised outside every [try]). *)
Definition service_of_alarm (alarm_name : value) : M Cloud string :=
  match alarm_name with
  | JStr s => mret (split_head "-" s)
  | v => raise (PyException ("'" +:+ type_name v +:+ "' object has no attribute 'split'"))
  end.

(** Step 5 of the handler: update target group if exists. *)
Definition update_target_group (target_group primary_id backup_id : string)
  : M Cloud unit :=
  print ("Updating target group " +:+ target_group);;
  (* Deregister primary *)
  try_except
    (elbv2_deregister_targets target_group [primary_id];;
     print ("Deregistered " +:+ primary_id +:+ " from target group"))
    (fun e => print ("Failed to deregister primary: " +:+ e));;
  (* Register backup *)
  try_except
    (tg_info ← elbv2_describe_target_groups [target_group];
     group ← first tg_info;
     port ← (match Port group with
             | Some p => mret p
             | None => raise (PyException "'Port'")
             end);
     elbv2_register_targets target_group [(backup_id, port)];;
     print ("Registered " +:+ backup_id +:+ " to target group on port " +:+ pretty port))
    (fun e => print ("Failed to register backup: " +:+ e)).

(** Fixed failover handler that actually works *)
Definition handler (event : value) : M Cloud Response :=
  print ("Received event: " +:+ json_dumps event);;
  (* Parse SNS message *)
  match parse_alarm_name event with
  | None =>
      print "Failed to parse SNS message";;
      mret {| statusCode := 400; body := "Invalid event format" |}
  | Some alarm_name =>
      print ("Alarm triggered: " +:+ format_value alarm_name);;
      (* Extract service name from alarm *)
      service ← service_of_alarm alarm_name;
      (* Get environment variables *)
      let backup_id := environ !! ("BACKUP_" +:+ upper service) in
      let target_group := environ !! ("TG_" +:+ upper service) in
      if negb (truthy backup_id) then
        print ("No backup instance found for " +:+ service);;
        mret {| statusCode := 404; body := "No backup for " +:+ service |}
      else
        let backup_id := default "" backup_id in
        try_except
          ((* 1. Find primary instance *)
           primary_response ← ec2_describe_instances
                                (Filters (service +:+ "-primary") ["running"]);
           match primary_response with
           | [] =>
               print ("Primary instance for " +:+ service +:+ " not found or not running");;
               mret {| statusCode := 404; body := "Primary not found" |}
           | r :: _ =>
               i ← first (Instances r);
               let primary_id := InstanceId i in
               print ("Found primary: " +:+ primary_id);;
               (* 2. Stop primary instance *)
               print ("Stopping primary instance " +:+ primary_id);;
               ec2_stop_instances [primary_id];;
               (* 3. Start backup instance *)
               print ("Starting backup instance " +:+ backup_id);;
               ec2_start_instances [backup_id];;
               (* 4. Wait for backup to be running *)
               print ("Waiting for " +:+ backup_id +:+ " to be running...");;
               ec2_wait_instance_running [backup_id]
                 (Some {| Delay := 10; MaxAttempts := 12 |});;
               (* 5. Update target group if exists *)
               (if truthy target_group then
                  update_target_group (default "" target_group) primary_id backup_id
                else mret tt);;
               print ("Failover complete for " +:+ service);;
               mret {| statusCode := 200;
                       body := json_dumps (JStr ("Failover complete for " +:+ service)) |}
           end)
          (fun e =>
             print ("Failover failed: " +:+ e);;
             mret {| statusCode := 500;
                     body := json_dumps (JStr ("Failover failed: " +:+ e)) |})
  end.

End Program.
End Fixed.

(** ** quick-fix-lambda.py *)

Module QuickFix.
Import Text Json Sdk Run Lambda.

Definition services : list string := ["signaling"; "coturn"; "frp"; "thingsboard"].

(** The scan of the handler: the first service of the list that occurs
    in the lowercased text (the [for] loop with its [break]). *)
Definition find_service (event_str : string) : option string :=
  find (fun service => contains service event_str) services.

Section Program.
Context {Cloud : Type} `{Ec2Client Cloud} `{Builtins}.
(** [os.environ] *)
Variable environ : gmap string string.

(** The service the handler selects for an event. *)
Definition triggered_service (event : value) : option string :=
  (* Try to get service name from anywhere in the event *)
  let event_str := lower (json_dumps event) in
  find_service event_str.

Definition handler (event : value) : M Cloud Response :=
  print ("Event: " +:+ json_dumps event);;
  let triggered_service := triggered_service event in
  if negb (truthy triggered_service) then
    print "No service found in event";;
    mret {| statusCode := 200; body := "No service identified" |}
  else
    let triggered_service := default "" triggered_service in
    print ("Failover triggered for: " +:+ triggered_service);;
    (* Get the backup instance ID from environment *)
    let backup_id := environ !! ("BACKUP_" +:+ upper triggered_service) in
    if negb (truthy backup_id) then
      print ("No backup ID for " +:+ triggered_service);;
      mret {| statusCode := 404; body := "No backup for " +:+ triggered_service |}
    else
      let backup_id := default "" backup_id in
      try_except
        ((* Find and stop primary *)
         primary ← ec2_describe_instances
                     (Filters (triggered_service +:+ "-primary") ["running"]);
         match primary with
         | r :: _ =>
             i ← first (Instances r);
             let primary_id := InstanceId i in
             print ("Stopping primary: " +:+ primary_id);;
             ec2_stop_instances [primary_id]
         | [] => mret tt
         end;;
         (* Start backup *)
         print ("Starting backup: " +:+ backup_id);;
         ec2_start_instances [backup_id];;
         mret {| statusCode := 200;
                 body := json_dumps (JStr ("Failover complete for " +:+ triggered_service)) |})
        (fun e =>
           print ("Error: " +:+ e);;
           mret {| statusCode := 500;
                   body := json_dumps (JStr ("Error: " +:+ e)) |}).

End Program.
End QuickFix.

(** ** Test doubles

    A small in-memory provider and a small JSON library, implementations
    of the interfaces above on which the programs can be run. *)

Module Fixture.
Import Text Json Sdk Run Lambda.

Record Machine := {
  machine_id : string;
  name_tag : string;
  state : string;
(** the number of polls a pending machine needs to be seen running *)
boot_polls : Z
}.

Record Group := {
  arn : string;
  port : option Z;
  targets : list (string * Z)
}.

Record Fake := {
  machines : list Machine;
  groups : list Group;
(** the number of attempts of a waiter that is given no configuration *)
default_attempts : Z;
(** the calls that fail, with their error message *)
outage : Call -> option string
}.

Definition no_outage : Call -> option string := fun _ => None.

Definition reservation_of (m : Machine) : Reservation :=
  {| Instances := [ {| InstanceId := machine_id m; StateName := state m |} ] |}.

Definition known (f : Fake) (id : string) : bool :=
  existsb (fun m => String.eqb (machine_id m) id) (machines f).

Definition set_state (new_state : string) (ids : list string) (f : Fake) : Fake :=
  {| machines :=
       map (fun m => if existsb (String.eqb (machine_id m)) ids
                     then {| machine_id := machine_id m; name_tag := name_tag m;
                             state := new_state; boot_polls := boot_polls m |}
                     else m) (machines f);
     groups := groups f;
     default_attempts := default_attempts f;
     outage := outage f |}.

Definition guarded {A} (c : Call) (run : Fake -> Reply A * Fake) (f : Fake)
  : Reply A * Fake :=
  match outage f c with
  | Some msg => (Raises msg, f)
  | None => run f
  end.

Definition fake_describe_instances (req : DescribeRequest) : Fake -> Reply (list Reservation) * Fake :=
  guarded (DescribeInstances req) (fun f =>
    match req with
    | Filters tag states =>
        (Returns (map reservation_of
                    (filter (fun m => String.eqb (name_tag m) tag
                                      && existsb (String.eqb (state m)) states)
                            (machines f))), f)
    | InstanceIds ids =>
        if forallb (known f) ids then
          (Returns (map reservation_of
                      (filter (fun m => existsb (String.eqb (machine_id m)) ids)
                              (machines f))), f)
        else (Raises "InvalidInstanceID.NotFound", f)
    end).

Definition fake_stop_instances (ids : list string) : Fake -> Reply unit * Fake :=
  guarded (StopInstances ids) (fun f =>
    if forallb (known f) ids then (Returns tt, set_state "stopped" ids f)
    else (Raises "InvalidInstanceID.NotFound", f)).

Definition fake_start_instances (ids : list string) : Fake -> Reply unit * Fake :=
  guarded (StartInstances ids) (fun f =>
    if forallb (known f) ids then (Returns tt, set_state "pending" ids f)
    else (Raises "InvalidInstanceID.NotFound", f)).

(** The waiter of the double polls at most [MaxAttempts] times, and at
    most [default_attempts] times when it is given no configuration. *)
Definition fake_wait_instance_running (ids : list string) (cfg : option WaiterConfig)
  : Fake -> Reply unit * Fake :=
  guarded (WaitInstanceRunning ids cfg) (fun f =>
    let ready m :=
      negb (existsb (String.eqb (machine_id m)) ids)
      || String.eqb (state m) "running"
      || (String.eqb (state m) "pending"
          && (boot_polls m <=? match cfg with
                               | Some c => MaxAttempts c
                               | None => default_attempts f
                               end)) in
    if forallb (known f) ids && forallb ready (machines f)
    then (Returns tt, set_state "running" ids f)
    else (Raises "Waiter InstanceRunning failed: Max attempts exceeded", f)).

#[global] Instance fake_ec2 : Ec2Client Fake := {|
  describe_instances := fake_describe_instances;
  stop_instances := fake_stop_instances;
  start_instances := fake_start_instances;
  wait_instance_running := fake_wait_instance_running
|}.

Definition has_group (f : Fake) (group : string) : bool :=
  existsb (fun g => String.eqb (arn g) group) (groups f).

Definition update_group (group : string) (change : list (string * Z) -> list (string * Z))
    (f : Fake) : Fake :=
  {| machines := machines f;
     groups := map (fun g => if String.eqb (arn g) group
                             then {| arn := arn g; port := port g;
                                     targets := change (targets g) |}
                             else g) (groups f);
     default_attempts := default_attempts f;
     outage := outage f |}.

Definition fake_deregister_targets (group : string) (ids : list string)
  : Fake -> Reply unit * Fake :=
  guarded (DeregisterTargets group ids) (fun f =>
    if has_group f group then
      (Returns tt,
       update_group group
         (filter (fun t => negb (existsb (String.eqb (fst t)) ids))) f)
    else (Raises "TargetGroupNotFound", f)).

Definition fake_describe_target_groups (arns : list string)
  : Fake -> Reply (list TargetGroup) * Fake :=
  guarded (DescribeTargetGroups arns) (fun f =>
    if forallb (has_group f) arns then
      (Returns (map (fun g => {| Port := port g |})
                  (filter (fun g => existsb (String.eqb (arn g)) arns) (groups f))), f)
    else (Raises "TargetGroupNotFound", f)).

Definition fake_register_targets (group : string) (new_targets : list (string * Z))
  : Fake -> Reply unit * Fake :=
  guarded (RegisterTargets group new_targets) (fun f =>
    if has_group f group then
      (Returns tt, update_group group (fun ts => ts ++ new_targets) f)
    else (Raises "TargetGroupNotFound", f)).

#[global] Instance fake_elbv2 : Elbv2Client Fake := {|
  deregister_targets := fake_deregister_targets;
  describe_target_groups := fake_describe_target_groups;
  register_targets := fake_register_targets
|}.

Definition double_quote : ascii := ascii_of_nat 34.
Definition backslash : ascii := ascii_of_nat 92.

(** A serializer with the separators of [json.dumps]; it escapes the
    quote and the backslash. *)
Fixpoint escape (s : string) : string :=
  match s with
  | EmptyString => EmptyString
  | String c s' =>
      if Ascii.eqb c double_quote then String backslash (String double_quote (escape s'))
      else if Ascii.eqb c backslash then String backslash (String backslash (escape s'))
      else String c (escape s')
  end.

Definition quote (s : string) : string :=
  String double_quote (escape s) +:+ String double_quote EmptyString.

Fixpoint dumps (v : value) : string :=
  match v with
  | JNull => "null"
  | JBool true => "true"
  | JBool false => "false"
  | JNum n => pretty n
  | JStr s => quote s
  | JList items =>
      "[" +:+ (fix items_text (l : list value) : string :=
                 match l with
                 | [] => ""
                 | x :: rest =>
                     match rest with
                     | [] => dumps x
                     | _ => dumps x +:+ ", " +:+ items_text rest
                     end
                 end) items +:+ "]"
  | JObj fields =>
      "{" +:+ (fix fields_text (l : list (string * value)) : string :=
                 match l with
                 | [] => ""
                 | (k, x) :: rest =>
                     match rest with
                     | [] => quote k +:+ ": " +:+ dumps x
                     | _ => quote k +:+ ": " +:+ dumps x +:+ ", " +:+ fields_text rest
                     end
                 end) fields +:+ "}"
  end.

(** The alarm messages the examples use. *)
Definition alarm_message (alarm_name : string) : value :=
  JObj [("AlarmName", JStr alarm_name); ("NewStateValue", JStr "ALARM")].

Definition documents : list value :=
  [ alarm_message "signaling-health-check";
    alarm_message "coturn-health-check";
    alarm_message "frp-health-check";
    alarm_message "thingsboard-health-check" ].

(** A parser that reads back the documents above. *)
Definition loads (text : string) : option value :=
  find (fun v => String.eqb (dumps v) text) documents.

#[global] Instance builtins : Builtins := {|
  json_dumps := dumps;
  json_loads := loads;
  py_str := dumps
|}.

(** The notification that carries an alarm. *)
Definition sns_event (alarm_name : string) : value :=
  JObj [("Records",
         JList [JObj [("EventSource", JStr "aws:sns");
                      ("Sns", JObj [("Message", JStr (dumps (alarm_message alarm_name)))])]])].

Definition machine (id tag st : string) (polls : Z) : Machine :=
  {| machine_id := id; name_tag := tag; state := st; boot_polls := polls |}.

(** A site with every service on its primary. *)
Definition site : Fake :=
  {| machines :=
       [ machine "i-sig-1" "signaling-primary" "running" 3;
         machine "i-sig-2" "signaling-backup" "stopped" 3;
         machine "i-cot-1" "coturn-primary" "running" 3;
         machine "i-cot-2" "coturn-backup" "stopped" 3;
         machine "i-frp-1" "frp-primary" "running" 3;
         machine "i-tb-1" "thingsboard-primary" "running" 3;
         machine "i-tb-2" "thingsboard-backup" "stopped" 20;
         machine "i-nat-1" "nat-primary" "running" 3;
         machine "i-nat-2" "nat-secondary" "stopped" 3 ];
     groups := [ {| arn := "tg-signaling"; port := Some 8443; targets := [("i-sig-1", 8443)] |} ];
     default_attempts := 40;
     outage := no_outage |}.

Definition environment : gmap string string :=
  list_to_map
    [ ("BACKUP_SIGNALING", "i-sig-2"); ("TG_SIGNALING", "tg-signaling");
      ("BACKUP_COTURN", "i-cot-2"); ("TG_COTURN", "tg-missing");
      ("BACKUP_THINGSBOARD", "i-tb-2"); ("TG_THINGSBOARD", "tg-missing") ].

Definition boot (f : Fake) : World Fake := mkWorld f [] [].

(** The world a program leaves. *)
Definition after {A} (m : M Fake A) (w : World Fake) : World Fake := (m w).2.


(** The site with the primary of coturn stopped. *)
Definition site_coturn_down : Fake := set_state "stopped" ["i-cot-1"] site.

Definition instance (id st : string) : Instance :=
  {| InstanceId := id; StateName := st |}.

(** A site without any machine. *)
Definition empty_site : Fake :=
  {| machines := []; groups := []; default_attempts := 40; outage := no_outage |}.

(** The site during an outage of [stop_instances]. *)
Definition site_stop_outage : Fake :=
  {| machines := machines site;
     groups := groups site;
     default_attempts := default_attempts site;
     outage := fun c => match c with
                        | StopInstances _ => Some "RequestLimitExceeded"
                        | _ => None
                        end |}.



(** Messages without a usable alarm name, and a parser that reads them
    back too. *)
Definition message_without_alarm_name : value :=
  JObj [("NewStateValue", JStr "ALARM")].

Definition message_with_numeric_alarm_name : value :=
  JObj [("AlarmName", JNum 42)].

Definition loads_more (text : string) : option value :=
  find (fun v => String.eqb (dumps v) text)
       (message_without_alarm_name :: message_with_numeric_alarm_name :: documents).

Definition builtins_more : Builtins :=
  {| json_dumps := dumps; json_loads := loads_more; py_str := dumps |}.

(** The notification that carries the message [message]. *)
Definition sns_event_of (message : value) : value :=
  JObj [("Records",
         JList [JObj [("EventSource", JStr "aws:sns");
                      ("Sns", JObj [("Message", JStr (dumps message))])]])].

End Fixture.

(** ** The vocabulary of the statements *)

Module Spec.
Import Sdk Run.

(** The log [log] goes through [steps] in their order: every step
    returns before the next one is issued, and a step that raises is
    the last one. *)
Fixpoint follows (steps : list Call) (log : list (Call * Outcome)) : Prop :=
  match steps, log with
  | [], [] => True
  | c :: steps', (c', Returned) :: log' => c = c' /\ follows steps' log'
  | c :: _, [(c', Raised _)] => c = c'
  | _, _ => False
  end.

(** The log of [steps] when each of them returned. *)
Definition completed (steps : list Call) : list (Call * Outcome) :=
  map (fun c => (c, Returned)) steps.

(** The three steps of a transition from the instance [old] to the
    instance [new], with the configuration given to the waiter. *)
Definition transition (old new : string) (cfg : option WaiterConfig) : list Call :=
  [StopInstances [old]; StartInstances [new]; WaitInstanceRunning [new] cfg].

(** The commands of the command line. *)
Definition known_commands : list string :=
  ["status"; "failover"; "failback"; "failover-all"; "failback-all"].

Section Logs.
Context {Cloud : Type}.

(** The world after [print(line)]. *)
Definition say (line : string) (w : World Cloud) : World Cloud :=
  mkWorld (cloud w) (calls w) (stdout w ++ [line]).

(** The world after the lines [lines] were printed. *)
Definition say_all (lines : list string) (w : World Cloud) : World Cloud :=
  mkWorld (cloud w) (calls w) (stdout w ++ lines).

(** Every call [m] issues, from every world, satisfies [P]. *)
Definition only (P : Call -> Prop) {A} (m : M Cloud A) : Prop :=
  forall w, exists log,
    calls (m w).2 = calls w ++ log /\ Forall (fun e => P e.1) log.
End Logs.

(** The calls of the compute API that only read. *)
Definition reads (c : Call) : Prop := mutating c = false /\ routing c = false.

(** The calls of the compute API. *)
Definition compute (c : Call) : Prop := routing c = false.

(** The calls of the compute API whose waits carry no waiter
    configuration. *)
Definition plain_wait (c : Call) : Prop :=
  compute c /\ forall ids cfg, c = WaitInstanceRunning ids cfg -> cfg = None.

(** The configuration the alarm handler gives to the waiter. *)
Definition alarm_wait : option WaiterConfig :=
  Some {| Delay := 10; MaxAttempts := 12 |}.

(** The calls whose waits carry the configuration of the alarm handler. *)
Definition bounded_wait (c : Call) : Prop :=
  forall ids cfg, c = WaitInstanceRunning ids cfg -> cfg = alarm_wait.


(** The calls of a failover that does not wait: lookups, stops and
    starts of instances. *)
Definition lookup_stop_start (c : Call) : Prop :=
  match c with
  | DescribeInstances _ | StopInstances _ | StartInstances _ => True
  | _ => False
  end.

(** The lookup by tag of [get_instance_id]. *)
Definition tag_lookup (tag_name : string) : Call :=
  DescribeInstances (Filters tag_name ["running"; "stopped"]).

(** The row of the status report for a service neither instance of
    which is found. *)
Definition not_found_row (service : string) : string :=
  Text.ljust 12 service +:+ " Primary: " +:+ Text.ljust 10 "not found"
  +:+ " Backup: " +:+ Text.ljust 10 "not found".

(** The status codes of the handlers. *)
Definition status_codes : list Z := [200; 400; 404; 500].

End Spec.

(** * Properties *)

Import Text Json Sdk Run Lambda Spec.

(** ** Tactics that run a program *)

(** Unfold the statements of the monad. *)
Ltac run :=
  cbv beta iota zeta delta
    [cloud calls stdout mbind M_bind bind mret M_ret ret print invoke
     try_except raise sys_exit first for_each outcome_of say say_all
     truthy negb orb andb default from_option id
     ec2_describe_instances ec2_stop_instances ec2_start_instances
     ec2_wait_instance_running elbv2_deregister_targets
     elbv2_describe_target_groups elbv2_register_targets].

(** Case analysis on the next call of the SDK, or on the next field of a
    response the program reads. *)
Ltac api_case :=
  match goal with
  | |- context [describe_instances ?r ?c] =>
      destruct (describe_instances r c) as [[[|? ?]|?] ?] eqn:?
  | |- context [stop_instances ?i ?c] =>
      destruct (stop_instances i c) as [[[]|?] ?] eqn:?
  | |- context [start_instances ?i ?c] =>
      destruct (start_instances i c) as [[[]|?] ?] eqn:?
  | |- context [wait_instance_running ?i ?g ?c] =>
      destruct (wait_instance_running i g c) as [[[]|?] ?] eqn:?
  | |- context [deregister_targets ?g ?i ?c] =>
      destruct (deregister_targets g i c) as [[[]|?] ?] eqn:?
  | |- context [describe_target_groups ?g ?c] =>
      destruct (describe_target_groups g c) as [[[|? ?]|?] ?] eqn:?
  | |- context [register_targets ?g ?t ?c] =>
      destruct (register_targets g t c) as [[[]|?] ?] eqn:?
  | |- context [Instances ?r] => destruct (Instances r) as [|? ?] eqn:?
  | |- context [Port ?g] => destruct (Port g) as [?|] eqn:?
  | |- context [match InstanceId ?i with EmptyString => _ | String _ _ => _ end] =>
      destruct (InstanceId i) as [|? ?] eqn:?
  end; run.

(** Close [Forall P log] on an explicit log. *)
Ltac forall_log :=
  repeat first [ apply Forall_nil_2 | apply Forall_cons_2; [ done | ] ].

(** ** Facts on strings *)

Section TextFacts.

Lemma lower_ascii_idem c : lower_ascii (lower_ascii c) = lower_ascii c.
Proof. destruct c as [[] [] [] [] [] [] [] []]; reflexivity. Qed.

Lemma lower_idem s : lower (lower s) = lower s.
Proof.
  unfold lower. induction s as [|c s IH]; [reflexivity|].
  cbn. rewrite lower_ascii_idem. f_equal. exact IH.
Qed.

Lemma append_cons c s t : String c s +:+ t = String c (s +:+ t).
Proof. reflexivity. Qed.

Lemma lower_app s t : lower (s +:+ t) = lower s +:+ lower t.
Proof.
  unfold lower. induction s as [|c s IH]; [reflexivity|].
  rewrite append_cons. cbn [map_string]. rewrite IH. reflexivity.
Qed.

Lemma startswith_spec p s : startswith p s = true <-> exists rest, s = p +:+ rest.
Proof.
  revert s. induction p as [|a p IH]; intros s; cbn.
  - split; [intros _; by exists s | done].
  - destruct s as [|b s].
    + split; [done | intros [rest Hrest]; discriminate].
    + destruct (Ascii.eqb_spec a b) as [Heq|Hne].
      * subst b. rewrite IH. split; intros [rest Hrest]; exists rest.
        -- by rewrite Hrest.
        -- rewrite append_cons in Hrest. congruence.
      * split; [done|]. intros [rest Hrest]. rewrite append_cons in Hrest. congruence.
Qed.

(** [contains] is the substring relation. *)
Lemma contains_spec needle hay :
  contains needle hay = true <-> exists before after, hay = before +:+ needle +:+ after.
Proof.
  induction hay as [|c hay IH]; cbn [contains].
  - rewrite orb_false_r, startswith_spec. split.
    + intros [rest ->]. by exists "", rest.
    + intros [[|b before] [after Heq]]; [by exists after|].
      rewrite append_cons in Heq. discriminate.
  - rewrite orb_true_iff, startswith_spec, IH. split.
    + intros [[rest ->] | (before & after & ->)].
      * by exists "", rest.
      * by exists (String c before), after.
    + intros [[|b before] [after Heq]].
      * left. by exists after.
      * right. exists before, after. rewrite append_cons in Heq. congruence.
Qed.

(** Lowercasing keeps occurrences. *)
Lemma contains_lower needle hay :
  contains needle hay = true -> contains (lower needle) (lower hay) = true.
Proof.
  rewrite !contains_spec. intros (before & after & ->).
  exists (lower before), (lower after). by rewrite !lower_app.
Qed.

Lemma find_service_in text s : QuickFix.find_service text = Some s -> In s QuickFix.services.
Proof. intros Hfind. by apply find_some in Hfind as [Hin _]. Qed.

Lemma services_truthy s : In s QuickFix.services -> truthy (Some s) = true.
Proof. cbn. intros [<-|[<-|[<-|[<-|[]]]]]; reflexivity. Qed.

End TextFacts.

(** ** What a program may call

    [only P m] is proved by following the program text. *)

Section Only.
Context {Cloud : Type}.
Implicit Types (P Q : Call -> Prop) (w : World Cloud).

Lemma only_ret P {A} (a : A) : only (Cloud:=Cloud) P (mret a).
Proof. intros w. exists []. by rewrite app_nil_r. Qed.

Lemma only_raise P {A} e : only (Cloud:=Cloud) P (raise (A:=A) e).
Proof. intros w. exists []. by rewrite app_nil_r. Qed.

Lemma only_print P line : only (Cloud:=Cloud) P (print line).
Proof. intros w. exists []. by rewrite app_nil_r. Qed.

Lemma only_first P {A} (l : list A) : only (Cloud:=Cloud) P (first l).
Proof. destruct l; [apply only_raise | apply only_ret]. Qed.

Lemma only_invoke P {A} c (f : Cloud -> Reply A * Cloud) : P c -> only P (invoke c f).
Proof.
  intros Hc w. unfold invoke. destruct (f (cloud w)) as [[a|msg] cl];
    (eexists [_]; split; [reflexivity | by constructor]).
Qed.

Lemma only_bind P {A B} (m : M Cloud A) (k : A -> M Cloud B) :
  only P m -> (forall a, only P (k a)) -> only P (m ≫= k).
Proof.
  intros Hm Hk w. destruct (Hm w) as (log1 & Hlog1 & HP1).
  unfold mbind, M_bind, bind. destruct (m w) as [[a|e] w1]; cbn [snd] in Hlog1.
  - destruct (Hk a w1) as (log2 & Hlog2 & HP2).
    exists (log1 ++ log2). rewrite Hlog2, Hlog1, app_assoc.
    split; [reflexivity | by apply Forall_app].
  - by exists log1.
Qed.

Lemma only_try P {A} (m : M Cloud A) h :
  only P m -> (forall msg, only P (h msg)) -> only P (try_except m h).
Proof.
  intros Hm Hh w. destruct (Hm w) as (log1 & Hlog1 & HP1).
  unfold try_except. destruct (m w) as [[a|[msg|code]] w1]; cbn [snd] in Hlog1;
    [by exists log1 | | by exists log1].
  destruct (Hh msg w1) as (log2 & Hlog2 & HP2).
  exists (log1 ++ log2). rewrite Hlog2, Hlog1, app_assoc.
  split; [reflexivity | by apply Forall_app].
Qed.

Lemma only_for_each P {A} (l : list A) body :
  (forall x, only P (body x)) -> only (Cloud:=Cloud) P (for_each l body).
Proof.
  intros Hbody. induction l as [|x l IH]; [apply only_ret|].
  cbn [for_each]. apply only_bind; [apply Hbody | intros _; exact IH].
Qed.

Lemma only_weaken P Q {A} (m : M Cloud A) :
  (forall c, P c -> Q c) -> only P m -> only Q m.
Proof.
  intros HPQ Hm w. destruct (Hm w) as (log & Hlog & HP).
  exists log. split; [exact Hlog|]. eapply Forall_impl; [exact HP|]. intros [c o]; apply HPQ.
Qed.


End Only.

(** The side condition of [only_invoke] on an explicit call. *)
Ltac call_ok :=
  cbv [reads compute plain_wait bounded_wait alarm_wait]; intros; repeat split;
  first [ reflexivity | congruence ].

(** Follow the text of a program; [known] closes the sub-programs that
    have their own lemma. *)
Ltac follow known :=
  repeat first
    [ apply only_ret | apply only_raise | apply only_print | apply only_first
    | apply only_invoke; call_ok
    | apply only_bind; [ | intros ? ]
    | apply only_try; [ | intros ? ]
    | apply only_for_each; intros ?
    | known
    | progress cbv beta zeta
    | match goal with
      | |- only _ (if ?b then _ else _) => destruct b
      | |- only _ (match ?x with _ => _ end) => destruct x
      end ].

(** ** The command-line tool *)

Section CliFacts.
Context {Cloud : Type} `{Ec2Client Cloud}.
Implicit Types w : World Cloud.

Lemma get_instance_id_reads tag : only reads (Cli.get_instance_id tag).
Proof.
  unfold Cli.get_instance_id, ec2_describe_instances. follow fail.
Qed.

Lemma instance_state_reads id : only reads (Cli.instance_state id).
Proof.
  unfold Cli.instance_state, ec2_describe_instances. follow fail.
Qed.

Lemma status_row_reads service : only reads (Cli.status_row service).
Proof.
  unfold Cli.status_row.
  follow ltac:(first [apply get_instance_id_reads | apply instance_state_reads]).
Qed.

Lemma status_reads : only reads Cli.status.
Proof. unfold Cli.status. follow ltac:(apply status_row_reads). Qed.

Lemma reads_plain_wait c : reads c -> plain_wait c.
Proof. intros [Hm Hr]. split; [exact Hr|]. intros ids cfg ->. discriminate. Qed.

Lemma failover_plain_wait service : only plain_wait (Cli.failover service).
Proof.
  unfold Cli.failover, ec2_stop_instances, ec2_start_instances, ec2_wait_instance_running.
  follow ltac:(eapply only_weaken; [exact reads_plain_wait | apply get_instance_id_reads]).
Qed.

Lemma failback_plain_wait service : only plain_wait (Cli.failback service).
Proof.
  unfold Cli.failback, ec2_stop_instances, ec2_start_instances, ec2_wait_instance_running.
  follow ltac:(eapply only_weaken; [exact reads_plain_wait | apply get_instance_id_reads]).
Qed.

Lemma main_plain_wait argv : only plain_wait (Cli.main argv).
Proof.
  unfold Cli.main, sys_exit.
  follow ltac:(first [ apply failover_plain_wait | apply failback_plain_wait
                     | eapply only_weaken; [exact reads_plain_wait | apply status_reads] ]).
Qed.

End CliFacts.

(** ** Running a program step by step *)

Section RunFacts.
Context {Cloud : Type}.
Implicit Types w : World Cloud.

Lemma run_bind {A B} (m : M Cloud A) (k : A -> M Cloud B) w :
  (m ≫= k) w =
  match m w with
  | (Ok a, w') => k a w'
  | (Raise e, w') => (Raise e, w')
  end.
Proof. reflexivity. Qed.

Lemma run_bind_ok {A B} (m : M Cloud A) (k : A -> M Cloud B) w a w' :
  m w = (Ok a, w') -> (m ≫= k) w = k a w'.
Proof. intros Hm. by rewrite run_bind, Hm. Qed.


Lemma say_all_cons line lines w : say_all lines (say line w) = say_all (line :: lines) w.
Proof. unfold say_all, say. cbn. by rewrite <- app_assoc. Qed.

Lemma say_all_nil w : say_all [] w = w.
Proof. destruct w. unfold say_all. cbn. by rewrite app_nil_r. Qed.

End RunFacts.

(** Finish a goal [exists r w' log, m w = (r, w') /\ calls w' = _ ++ log /\ ...]
    once the run of [m] is explicit. *)
Ltac name_log :=
  split; [ reflexivity | ];
  cbv [calls stdout]; rewrite <- ?app_assoc;
  split; [ reflexivity | ]; cbn [app].

Ltac decide_completed :=
  cbv [completed transition map]; split; intros;
  first [ reflexivity | discriminate | congruence ].

Section CliRuns.
Context {Cloud : Type} `{Ec2Client Cloud}.
Implicit Types w : World Cloud.


(** The transition of [failback], once both instances are resolved. *)
Lemma failback_transition service p b w w1 w2 :
  Cli.get_instance_id (service +:+ "-primary") w = (Ok (Some p), w1) ->
  Cli.get_instance_id (service +:+ "-backup") w1 = (Ok (Some b), w2) ->
  p <> "" -> b <> "" ->
  exists r w' log,
    Cli.failback service w = (r, w') /\
    calls w' = calls w2 ++ log /\
    follows (transition b p None) log /\
    (r = Ok true <-> log = completed (transition b p None)).
Proof.
  intros Hp Hb Np Nb. destruct w2 as [c2 l2 o2].
  unfold Cli.failback. rewrite (run_bind_ok _ _ _ _ _ Hp), (run_bind_ok _ _ _ _ _ Hb).
  destruct p as [|pc p]; [done|]. destruct b as [|bc b]; [done|].
  run. repeat api_case;
    (eexists _, _, _; name_log; split; [by cbn | decide_completed]).
Qed.

(** A transition that completes is reported as a success. *)
Lemma failover_completes service p b w w1 w2 c3 c4 c5 :
  Cli.get_instance_id (service +:+ "-primary") w = (Ok (Some p), w1) ->
  Cli.get_instance_id (service +:+ "-backup") w1 = (Ok (Some b), w2) ->
  p <> "" -> b <> "" ->
  stop_instances [p] (cloud w2) = (Returns tt, c3) ->
  start_instances [b] c3 = (Returns tt, c4) ->
  wait_instance_running [b] None c4 = (Returns tt, c5) ->
  exists w', Cli.failover service w = (Ok true, w') /\ cloud w' = c5.
Proof.
  intros Hp Hb Np Nb Hstop Hstart Hwait. destruct w2 as [c2 l2 o2].
  unfold Cli.failover. rewrite (run_bind_ok _ _ _ _ _ Hp), (run_bind_ok _ _ _ _ _ Hb).
  destruct p as [|pc p]; [done|]. destruct b as [|bc b]; [done|].
  cbn [cloud] in Hstop. run. rewrite Hstop. run. rewrite Hstart. run. rewrite Hwait.
  by eexists.
Qed.



(** A command that is not known, and no command at all. *)
Lemma main_invalid_command argv w :
  (2 <= length argv)%nat -> nth 1 argv "" ∉ known_commands ->
  Cli.main argv w = (Raise (SystemExit 1), say ("Invalid command: " +:+ nth 1 argv "") w).
Proof.
  intros Hlen Hcmd. unfold Cli.main.
  destruct (Nat.ltb_spec (length argv) 2) as [Hlt|_]; [lia|].
  cbv zeta. set (command := nth 1 argv "") in *.
  assert (forall known, known ∈ known_commands -> String.eqb command known = false) as Hne.
  { intros known Hin. apply String.eqb_neq. intros ->. contradiction. }
  rewrite !Hne by (cbv [known_commands]; set_solver).
  reflexivity.
Qed.

Lemma main_no_command argv w :
  (length argv < 2)%nat ->
  Cli.main argv w = (Raise (SystemExit 1), say_all Cli.usage w).
Proof.
  intros Hlen. unfold Cli.main.
  destruct (Nat.ltb_spec (length argv) 2) as [_|Hge]; [|lia].
  unfold Cli.usage. rewrite <- !say_all_cons, say_all_nil. reflexivity.
Qed.

End CliRuns.

(** ** The alarm handler *)

Section FixedFacts.
Context {Cloud : Type} `{Ec2Client Cloud} `{Elbv2Client Cloud} `{Builtins}.
Variable environ : gmap string string.
Implicit Types w : World Cloud.

(** The update of the target group never raises: it issues calls of the
    routing API only, and every failure leaves its line in the output. *)
Lemma update_target_group_total tg p b w :
  exists w' log lines,
    Fixed.update_target_group tg p b w = (Ok tt, w') /\
    calls w' = calls w ++ log /\
    Forall (fun e => routing e.1 = true) log /\
    stdout w' = stdout w ++ lines /\
    (forall c msg, (c, Raised msg) ∈ log ->
       ("Failed to deregister primary: " +:+ msg) ∈ lines \/
       ("Failed to register backup: " +:+ msg) ∈ lines).
Proof.
  destruct w as [c0 l0 o0].
  unfold Fixed.update_target_group. run. repeat api_case;
    (eexists _, _, _; name_log; split; [forall_log|];
     split; [reflexivity|]; cbn [app]; intros c' msg' Hin;
     repeat (apply elem_of_cons in Hin as [Hin|Hin]; [simplify_eq|]);
     [ first [ left; set_solver | right; set_solver ] .. | by apply elem_of_nil in Hin ]).
Qed.


(** The handler without a configured backup. *)
Lemma handler_no_backup event alarm w :
  Fixed.parse_alarm_name event = Some (JStr alarm) ->
  let service := split_head "-" alarm in
  environ !! ("BACKUP_" +:+ upper service) = None ->
  exists w',
    Fixed.handler environ event w
      = (Ok {| statusCode := 404; body := "No backup for " +:+ service |}, w') /\
    calls w' = calls w /\ cloud w' = cloud w.
Proof.
  intros Hparse service Hb. destruct w as [c0 l0 o0].
  unfold Fixed.handler. rewrite Hparse. unfold Fixed.service_of_alarm.
  fold service. run. rewrite Hb. by eexists.
Qed.





End FixedFacts.

(** ** The permissive handler *)

Section QuickFacts.
Context {Cloud : Type} `{Ec2Client Cloud} `{Builtins}.
Variable environ : gmap string string.
Implicit Types w : World Cloud.

Lemma find_service_coturn text :
  contains "coturn" text = true -> contains "signaling" text = false ->
  QuickFix.find_service text = Some "coturn".
Proof.
  intros Hcoturn Hsignaling. unfold QuickFix.find_service, QuickFix.services.
  cbn [find]. by rewrite Hsignaling, Hcoturn.
Qed.

Lemma find_service_none text :
  (forall s, In s QuickFix.services -> contains s text = false) ->
  QuickFix.find_service text = None.
Proof.
  intros Hnone. unfold QuickFix.find_service.
  destruct (find _ _) as [s|] eqn:Hfind; [|reflexivity].
  apply find_some in Hfind as [Hin Hs]. by rewrite (Hnone s Hin) in Hs.
Qed.

Lemma find_service_some text s :
  In s QuickFix.services -> contains s text = true ->
  is_Some (QuickFix.find_service text).
Proof.
  intros Hin Hs. unfold QuickFix.find_service.
  destruct (find _ _) as [s'|] eqn:Hfind; [by eexists|].
  pose proof (find_none _ _ Hfind s Hin) as Hnone. cbv beta in Hnone. congruence.
Qed.

(** The handler when the scan selects no service. *)
Lemma quick_no_service event w :
  QuickFix.triggered_service event = None ->
  QuickFix.handler environ event w
    = (Ok {| statusCode := 200; body := "No service identified" |},
       say "No service found in event" (say ("Event: " +:+ json_dumps event) w)).
Proof.
  intros Hnone. unfold QuickFix.handler. rewrite Hnone. reflexivity.
Qed.


(** The handler when the lookup finds no running primary: the backup
    is started all the same, and nothing is stopped. *)
Lemma quick_backup_without_primary event s b c1 w :
  QuickFix.triggered_service event = Some s ->
  environ !! ("BACKUP_" +:+ upper s) = Some b -> b <> "" ->
  describe_instances (Filters (s +:+ "-primary") ["running"]) (cloud w) = (Returns [], c1) ->
  exists resp w' o,
    QuickFix.handler environ event w = (Ok resp, w') /\
    calls w' = calls w ++
      [ (DescribeInstances (Filters (s +:+ "-primary") ["running"]), Returned);
        (StartInstances [b], o) ] /\
    (o = Returned ->
     resp = {| statusCode := 200;
               body := json_dumps (JStr ("Failover complete for " +:+ s)) |}) /\
    (forall msg, o = Raised msg -> statusCode resp = 500).
Proof.
  intros Hs Hb Nb Hdesc. destruct w as [c0 l0 o0]. cbn [cloud] in Hdesc.
  pose proof (services_truthy s (find_service_in _ _ Hs)) as Htruthy.
  unfold QuickFix.handler. rewrite Hs. destruct s as [|sc s]; [discriminate|].
  run. rewrite Hb. destruct b as [|bc b]; [done|]. run. rewrite Hdesc. run.
  api_case; (eexists _, _, _; name_log; split; intros; first [done | by simplify_eq]).
Qed.

(** The scan reads the lowercased text only. *)
Lemma triggered_service_lowercase event event' :
  json_dumps event' = lower (json_dumps event) ->
  QuickFix.triggered_service event' = QuickFix.triggered_service event.
Proof.
  intros Hlower. unfold QuickFix.triggered_service. by rewrite Hlower, lower_idem.
Qed.

(** A service name in any letter case is found by the scan. *)
Lemma service_found_in_any_case event name s :
  In s QuickFix.services -> lower name = s ->
  contains name (json_dumps event) = true ->
  contains s (lower (json_dumps event)) = true /\
  is_Some (QuickFix.triggered_service event).
Proof.
  intros Hin Hname Hoccurs. apply contains_lower in Hoccurs. rewrite Hname in Hoccurs.
  split; [exact Hoccurs|]. by apply (find_service_some _ s).
Qed.

End QuickFacts.

(** ** The status report *)

Section StatusFacts.
Context {Cloud : Type} `{Ec2Client Cloud}.
Implicit Types w : World Cloud.



End StatusFacts.

(** * The claims *)

Section Claims.
Context {Cloud : Type} `{Ec2Client Cloud} `{Elbv2Client Cloud} `{Builtins}.
Variable environ : gmap string string.
Implicit Types w : World Cloud.




(** Claim C4, as amended.  For every event whose serialized text
    contains [coturn] and does not contain [signaling] in any letter
    case, the permissive handler selects [coturn]; and when a backup is
    configured for it and the lookup finds no running primary, the
    handler issues no stop and still issues the start of the backup. *)
Theorem coturn_selected_and_backup_started :
  forall event,
    contains "coturn" (json_dumps event) = true ->
    contains "signaling" (lower (json_dumps event)) = false ->
    QuickFix.triggered_service event = Some "coturn" /\
    forall b c1 w,
      environ !! "BACKUP_COTURN" = Some b -> b <> "" ->
      describe_instances (Filters "coturn-primary" ["running"]) (cloud w)
        = (Returns [], c1) ->
      exists resp w' o,
        QuickFix.handler environ event w = (Ok resp, w') /\
        calls w' = calls w ++
          [ (DescribeInstances (Filters "coturn-primary" ["running"]), Returned);
            (StartInstances [b], o) ] /\
        (o = Returned ->
         resp = {| statusCode := 200;
                   body := json_dumps (JStr "Failover complete for coturn") |}) /\
        (forall msg, o = Raised msg -> statusCode resp = 500).
Proof.
  intros event Hcoturn Hsignaling.
  assert (QuickFix.triggered_service event = Some "coturn") as Hs.
  { apply find_service_coturn; [|exact Hsignaling].
    by apply (contains_lower "coturn"). }
  split; [exact Hs|]. intros b c1 w Hb Nb Hdesc.
  by apply (quick_backup_without_primary environ event "coturn" b c1 w).
Qed.


(** Claim C6.  When the primary and the backup of a service are both
    resolved, Failback is Failover with the roles exchanged: its log
    follows the steps stop backup, start primary, wait for the primary
    to run, and it returns [True] exactly when all three returned.  No
    call of the routing API is issued by [failback], nor by any command
    of the command-line tool, the only program with a failback. *)
Theorem failback_mirrors_failover :
  (forall service p b w w1 w2,
     Cli.get_instance_id (service +:+ "-primary") w = (Ok (Some p), w1) ->
     Cli.get_instance_id (service +:+ "-backup") w1 = (Ok (Some b), w2) ->
     p <> "" -> b <> "" ->
     exists r w' log,
       Cli.failback service w = (r, w') /\
       calls w' = calls w2 ++ log /\
       follows (transition b p None) log /\
       (r = Ok true <-> log = completed (transition b p None)))
  /\ (forall service, only (Cloud:=Cloud) compute (Cli.failback service))
  /\ (forall argv, only (Cloud:=Cloud) compute (Cli.main argv)).
Proof.
  split; [|split].
  - apply failback_transition.
  - intros service. eapply only_weaken; [|apply failback_plain_wait]. by intros c [Hc _].
  - intros argv. eapply only_weaken; [|apply main_plain_wait]. by intros c [Hc _].
Qed.

(** Claim C7, as amended.  For every invocation whose first argument is
    not one of the known commands, the program prints the line
    [Invalid command: <argument>] and nothing else, issues no call and
    exits with status 1; the usage text is what an invocation without
    any argument prints, which exits with status 1 too. *)
Theorem unknown_command_is_rejected :
  (forall argv w,
     (2 <= length argv)%nat -> nth 1 argv "" ∉ known_commands ->
     Cli.main argv w
       = (Raise (SystemExit 1), say ("Invalid command: " +:+ nth 1 argv "") w) /\
     exit_status (Cli.main argv w).1 = 1)
  /\
  (forall argv w,
     (length argv < 2)%nat ->
     Cli.main argv w = (Raise (SystemExit 1), say_all Cli.usage w) /\
     exit_status (Cli.main argv w).1 = 1).
Proof.
  split; intros argv w Hlen.
  - intros Hcmd. by rewrite (main_invalid_command argv w Hlen Hcmd).
  - by rewrite (main_no_command argv w Hlen).
Qed.


(** Claim C9, as amended.  For every event whose serialized text
    contains none of the known service names in any letter case (its
    lowercased text contains none of them), the permissive handler
    issues no call and returns the code 200 with the body
    [No service identified]. *)
Theorem no_service_in_any_case_is_ignored :
  forall event w,
    (forall s, In s QuickFix.services -> contains s (lower (json_dumps event)) = false) ->
    QuickFix.handler environ event w
      = (Ok {| statusCode := 200; body := "No service identified" |},
         say "No service found in event" (say ("Event: " +:+ json_dumps event) w)) /\
    calls (QuickFix.handler environ event w).2 = calls w /\
    cloud (QuickFix.handler environ event w).2 = cloud w.
Proof.
  intros event w Hnone.
  assert (QuickFix.triggered_service event = None) as Hs by by apply find_service_none.
  by rewrite (quick_no_service environ event w Hs).
Qed.

(** Claim C10.  The scan of the permissive handler does not depend on
    the letter case: an event and the event whose serialized text is the
    lowercase of its text select the same service, and a known service
    name that occurs in the text in any letter case is found by the
    test of the scan on the lowercased text, so a service is selected. *)
Theorem service_detection_ignores_case :
  (forall event event',
     json_dumps event' = lower (json_dumps event) ->
     QuickFix.triggered_service event' = QuickFix.triggered_service event)
  /\
  (forall event name s,
     In s QuickFix.services -> lower name = s ->
     contains name (json_dumps event) = true ->
     contains s (lower (json_dumps event)) = true /\
     is_Some (QuickFix.triggered_service event)).
Proof.
  split.
  - apply triggered_service_lowercase.
  - apply service_found_in_any_case.
Qed.

End Claims.

(** * The claims on the test doubles *)

Section Runs.
Import Fixture.

(** The two paths on the same site: the backup of thingsboard needs 20
    polls, more than the 12 the alarm handler allows and fewer than the
    waiter's own 40. *)
Example thingsboard_alarm_times_out :
  (Fixed.handler environment (sns_event "thingsboard-health-check") (boot site)).1
  = Ok {| statusCode := 500;
          body := json_dumps (JStr "Failover failed: Waiter InstanceRunning failed: Max attempts exceeded") |}.
Proof. vm_compute. reflexivity. Qed.

Example thingsboard_cli_completes :
  (Cli.failover "thingsboard" (boot site)).1 = Ok true.
Proof. vm_compute. reflexivity. Qed.

Example signaling_alarm_updates_routing :
  map fst (calls (after (Fixed.handler environment (sns_event "signaling-health-check"))
                        (boot site)))
  = [ DescribeInstances (Filters "signaling-primary" ["running"]);
      StopInstances ["i-sig-1"]; StartInstances ["i-sig-2"];
      WaitInstanceRunning ["i-sig-2"] alarm_wait;
      DeregisterTargets "tg-signaling" ["i-sig-1"];
      DescribeTargetGroups ["tg-signaling"];
      RegisterTargets "tg-signaling" [("i-sig-2", 8443)] ].
Proof. vm_compute. reflexivity. Qed.




(** A payload that names both services: the first of the list wins. *)
Lemma coturn_text_with_signaling_selects_signaling :
  let event := JObj [("detail", JStr "signaling relay via coturn")] in
  contains "coturn" (json_dumps event) = true /\
  QuickFix.triggered_service event = Some "signaling" /\
  QuickFix.triggered_service event <> Some "coturn" /\
  map fst (calls (after (QuickFix.handler environment event) (boot site)))
  = [ DescribeInstances (Filters "signaling-primary" ["running"]);
      StopInstances ["i-sig-1"]; StartInstances ["i-sig-2"] ].
Proof. repeat split; try discriminate; vm_compute; reflexivity. Qed.

Lemma coturn_selected_and_backup_started_witness :
  let event := JObj [("detail", JStr "coturn relay unreachable")] in
  let w := boot site_coturn_down in
  (contains "coturn" (json_dumps event) = true /\
   contains "signaling" (lower (json_dumps event)) = false) /\
  QuickFix.triggered_service event = Some "coturn" /\
  exists resp w' o,
    QuickFix.handler environment event w = (Ok resp, w') /\
    calls w' = calls w ++
      [ (DescribeInstances (Filters "coturn-primary" ["running"]), Returned);
        (StartInstances ["i-cot-2"], o) ] /\
    (o = Returned ->
     resp = {| statusCode := 200;
               body := json_dumps (JStr "Failover complete for coturn") |}) /\
    (forall msg, o = Raised msg -> statusCode resp = 500).
Proof.
  intros event w.
  assert (contains "coturn" (json_dumps event) = true) as Hcoturn
    by (vm_compute; reflexivity).
  assert (contains "signaling" (lower (json_dumps event)) = false) as Hsignaling
    by (vm_compute; reflexivity).
  split; [by split|].
  destruct (coturn_selected_and_backup_started (Cloud:=Fake) environment event
              Hcoturn Hsignaling) as [Hselected Hstarted].
  split; [exact Hselected|].
  apply (Hstarted "i-cot-2" site_coturn_down w);
    [ vm_compute; reflexivity | discriminate | vm_compute; reflexivity ].
Defined.


Lemma failback_mirrors_failover_witness :
  let w := boot site in
  let w1 := after (Cli.get_instance_id "signaling-primary") w in
  let w2 := after (Cli.get_instance_id "signaling-backup") w1 in
  exists r w' log,
    Cli.failback "signaling" w = (r, w') /\
    calls w' = calls w2 ++ log /\
    follows (transition "i-sig-2" "i-sig-1" None) log /\
    (r = Ok true <-> log = completed (transition "i-sig-2" "i-sig-1" None)).
Proof.
  intros w w1 w2.
  apply (proj1 (failback_mirrors_failover (Cloud:=Fake))
           "signaling" "i-sig-1" "i-sig-2" w w1 w2);
    first [ discriminate | vm_compute; reflexivity ].
Defined.

(** An unknown command does not print the usage text. *)
Lemma unknown_command_prints_no_usage :
  let argv := ["failover-automation.py"; "restart"] in
  let w' := after (Cli.main argv) (boot site) in
  (nth 1 argv "" ∉ known_commands) /\
  stdout w' = ["Invalid command: restart"] /\
  ~ (forall line, line ∈ Cli.usage -> line ∈ stdout w').
Proof.
  intros argv w'. split; [|split].
  - intros Hin. cbv [known_commands] in Hin.
    repeat (apply elem_of_cons in Hin as [Hin|Hin]; [discriminate|]).
    by apply elem_of_nil in Hin.
  - vm_compute. reflexivity.
  - intros Husage.
    specialize (Husage "Commands:" ltac:(cbv [Cli.usage]; apply list_elem_of_further, list_elem_of_here)).
    vm_compute in Husage.
    apply elem_of_cons in Husage as [Hline|Hline]; [discriminate|].
    by apply elem_of_nil in Hline.
Qed.

Lemma unknown_command_is_rejected_witness :
  let argv := ["failover-automation.py"; "restart"] in
  let w := boot site in
  (Cli.main argv w = (Raise (SystemExit 1), say "Invalid command: restart" w) /\
   exit_status (Cli.main argv w).1 = 1)
  /\
  (Cli.main ["failover-automation.py"] w = (Raise (SystemExit 1), say_all Cli.usage w) /\
   exit_status (Cli.main ["failover-automation.py"] w).1 = 1).
Proof.
  intros argv w. split.
  - apply (proj1 (unknown_command_is_rejected (Cloud:=Fake)) argv w); [cbn; lia|].
    intros Hin. cbv [known_commands] in Hin.
    repeat (apply elem_of_cons in Hin as [Hin|Hin]; [discriminate|]).
    by apply elem_of_nil in Hin.
  - apply (proj2 (unknown_command_is_rejected (Cloud:=Fake))
             ["failover-automation.py"] w). cbn; lia.
Defined.


(** A service name in capitals is identified. *)
Lemma uppercase_service_name_is_identified :
  let event := JObj [("service", JStr "COTURN")] in
  let run := QuickFix.handler environment event (boot site) in
  (forall s, In s QuickFix.services -> contains s (json_dumps event) = false) /\
  run.1 = Ok {| statusCode := 200;
                body := json_dumps (JStr "Failover complete for coturn") |} /\
  run.1 <> Ok {| statusCode := 200; body := "No service identified" |} /\
  map fst (calls run.2)
  = [ DescribeInstances (Filters "coturn-primary" ["running"]);
      StopInstances ["i-cot-1"]; StartInstances ["i-cot-2"] ].
Proof.
  intros event run. split; [|split; [|split]].
  - intros s [<-|[<-|[<-|[<-|[]]]]]; vm_compute; reflexivity.
  - vm_compute. reflexivity.
  - vm_compute. discriminate.
  - vm_compute. reflexivity.
Qed.

Lemma no_service_in_any_case_is_ignored_witness :
  let event := JObj [("detail", JStr "TURN relay unreachable")] in
  let w := boot site in
  QuickFix.handler environment event w
    = (Ok {| statusCode := 200; body := "No service identified" |},
       say "No service found in event" (say ("Event: " +:+ json_dumps event) w)) /\
  calls (QuickFix.handler environment event w).2 = calls w /\
  cloud (QuickFix.handler environment event w).2 = cloud w.
Proof.
  intros event w.
  apply (no_service_in_any_case_is_ignored (Cloud:=Fake) environment event w).
  intros s [<-|[<-|[<-|[<-|[]]]]]; vm_compute; reflexivity.
Defined.

Lemma service_detection_ignores_case_witness :
  let event := JObj [("service", JStr "CoTURN")] in
  let event' := JObj [("service", JStr "coturn")] in
  QuickFix.triggered_service event' = QuickFix.triggered_service event
  /\ (contains "coturn" (lower (json_dumps event)) = true /\
      is_Some (QuickFix.triggered_service event)).
Proof.
  intros event event'. split.
  - apply (proj1 service_detection_ignores_case event event').
    vm_compute. reflexivity.
  - apply (proj2 service_detection_ignores_case event "CoTURN" "coturn");
      [ cbn; tauto | vm_compute; reflexivity | vm_compute; reflexivity ].
Defined.

End Runs.

(** * Further properties of the programs *)

(** ** The command-line tool *)

Section CliMore.
Context {Cloud : Type} `{Ec2Client Cloud}.
Implicit Types w : World Cloud.

Lemma run_print {B} line (k : unit -> M Cloud B) w :
  (print line ≫= k) w = k tt (say line w).
Proof. reflexivity. Qed.

(** Property X1.  [get_instance_id] issues one lookup by tag, among the running
    and the stopped instances, and the first instance of the first
    reservation decides: its id is the result whatever follows it; without
    any reservation the result is [None]; a first reservation without
    instances is an [IndexError], whatever the later reservations hold;
    an error of the SDK is raised as it is. *)
Theorem get_instance_id_first_match :
  forall tag w reply c1,
    describe_instances (Filters tag ["running"; "stopped"]) (cloud w) = (reply, c1) ->
    let w1 := mkWorld c1 (calls w ++ [(tag_lookup tag, outcome_of reply)]) (stdout w) in
    Cli.get_instance_id tag w =
      (match reply with
       | Returns [] => Ok None
       | Returns (r :: _) =>
           match Instances r with
           | i :: _ => Ok (Some (InstanceId i))
           | [] => Raise (PyException "list index out of range")
           end
       | Raises msg => Raise (PyException msg)
       end, w1).
Proof.
  intros tag [c0 l0 o0] reply c1 Hdesc w1. cbn [cloud] in Hdesc.
  unfold Cli.get_instance_id. run. rewrite Hdesc.
  destruct reply as [[|r rs]|msg]; run; [reflexivity | | reflexivity].
  destruct (Instances r); reflexivity.
Qed.

(** The two lookups of [failover] and [failback]. *)
Ltac settle_lookups :=
  intros Hlog Hmut; cbv [snd] in Hlog; rewrite <- ?app_assoc in Hlog;
  apply app_inv_head in Hlog; subst; cbn [app] in *;
  first
    [ by eexists
    | exfalso;
      repeat (apply Exists_cons in Hmut as [Hmut|Hmut]; [discriminate|]);
      by apply Exists_nil in Hmut ].

(** Property X2.  [failover] and [failback] change nothing before both lookups
    returned: whenever the log of either holds a mutating call, it starts
    with the lookup of the primary and the lookup of the backup, both
    returned. *)
Theorem cli_mutates_only_after_both_lookups :
  forall service w log,
    (calls (Cli.failover service w).2 = calls w ++ log \/
     calls (Cli.failback service w).2 = calls w ++ log) ->
    Exists (fun e => mutating e.1 = true) log ->
    exists rest,
      log = (tag_lookup (service +:+ "-primary"), Returned)
            :: (tag_lookup (service +:+ "-backup"), Returned) :: rest.
Proof.
  intros service [c0 l0 o0] log [Hlog|Hlog]; revert Hlog;
    [ unfold Cli.failover | unfold Cli.failback ];
    unfold Cli.get_instance_id, tag_lookup; run; repeat api_case; settle_lookups.
Qed.

(** Property X3.  When either instance is not resolved (no match, or an empty
    id), [failover] and [failback] print the same error, return [False]
    and stop there, in the world the lookups left. *)
Theorem cli_aborts_when_either_instance_is_unresolved :
  forall service p b w w1 w2,
    Cli.get_instance_id (service +:+ "-primary") w = (Ok p, w1) ->
    Cli.get_instance_id (service +:+ "-backup") w1 = (Ok b, w2) ->
    truthy p && truthy b = false ->
    let w' := say ("Error: Could not find instances for " +:+ service) w2 in
    Cli.failover service w = (Ok false, w') /\
    Cli.failback service w = (Ok false, w').
Proof.
  intros service p b w w1 w2 Hp Hb Hunresolved w'.
  assert (negb (truthy p) || negb (truthy b) = true) as Htest.
  { by rewrite <- negb_andb, Hunresolved. }
  unfold Cli.failover, Cli.failback.
  rewrite !(run_bind_ok _ _ _ _ _ Hp), !(run_bind_ok _ _ _ _ _ Hb), Htest.
  by split.
Qed.

(** Property X4.  The status report only reads: every call of [status], and of
    the row of any service, is a [describe_instances]. *)
Theorem status_only_describes :
  only (Cloud:=Cloud) (fun c => exists req, c = DescribeInstances req) Cli.status
  /\ forall service,
       only (Cloud:=Cloud) (fun c => exists req, c = DescribeInstances req)
            (Cli.status_row service).
Proof.
  assert (forall service,
            only (Cloud:=Cloud) (fun c => exists req, c = DescribeInstances req)
                 (Cli.status_row service)) as Hrow.
  { intros service. unfold Cli.status_row, Cli.get_instance_id, Cli.instance_state,
      ec2_describe_instances.
    follow ltac:(apply only_invoke; by eexists). }
  split; [|exact Hrow].
  unfold Cli.status. follow ltac:(first [apply Hrow | apply only_invoke; by eexists]).
Qed.

End CliMore.

(** ** The status report when nothing is found *)

Section StatusUnresolved.
Context {Cloud : Type} `{Ec2Client Cloud}.
Implicit Types w : World Cloud.

(** A provider that stays in states ([inv]) in which no lookup by tag
    finds an instance. *)
Variable inv : Cloud -> Prop.
Hypothesis nothing_found :
  forall c tag states, inv c ->
    exists c', describe_instances (Filters tag states) c = (Returns [], c') /\ inv c'.

Lemma run_ret {A B} (a : A) (k : A -> M Cloud B) w : (mret a ≫= k) w = k a w.
Proof. reflexivity. Qed.

Lemma get_instance_id_unresolved tag w :
  inv (cloud w) ->
  exists w', Cli.get_instance_id tag w = (Ok None, w') /\
             inv (cloud w') /\ stdout w' = stdout w.
Proof.
  destruct w as [c0 l0 o0]. cbn [cloud]. intros Hinv.
  destruct (nothing_found c0 tag ["running"; "stopped"] Hinv) as (c' & Hdesc & Hinv').
  unfold Cli.get_instance_id. run. rewrite Hdesc. by eexists.
Qed.

Lemma status_row_unresolved service w :
  inv (cloud w) ->
  exists w', Cli.status_row service w = (Ok tt, w') /\
             inv (cloud w') /\ stdout w' = stdout w ++ [not_found_row service].
Proof.
  intros Hinv.
  destruct (get_instance_id_unresolved (service +:+ "-primary") w Hinv)
    as (w1 & Hp & Hinv1 & Hout1).
  destruct (get_instance_id_unresolved (service +:+ "-backup") w1 Hinv1)
    as (w2 & Hb & Hinv2 & Hout2).
  destruct (get_instance_id_unresolved "nat-secondary" w2 Hinv2)
    as (w3 & Hs & Hinv3 & Hout3).
  unfold Cli.status_row.
  rewrite (run_bind_ok _ _ _ _ _ Hp), (run_bind_ok _ _ _ _ _ Hb).
  cbn [truthy negb andb]. rewrite !run_bind. cbn [truthy mret M_ret ret].
  rewrite andb_true_r. destruct (String.eqb service "nat").
  - rewrite run_ret, run_bind, run_bind, Hs. cbn [truthy mret M_ret ret print].
    eexists. split; [reflexivity|]. cbn [cloud stdout].
    split; [exact Hinv3 | by rewrite Hout3, Hout2, Hout1].
  - rewrite !run_ret. cbn [print].
    eexists. split; [reflexivity|]. cbn [cloud stdout].
    split; [exact Hinv2 | by rewrite Hout2, Hout1].
Qed.

Lemma rows_unresolved services w :
  inv (cloud w) ->
  exists w', for_each services Cli.status_row w = (Ok tt, w') /\
             inv (cloud w') /\ stdout w' = stdout w ++ map not_found_row services.
Proof.
  revert w. induction services as [|service services IH]; intros w Hinv.
  - exists w. by rewrite app_nil_r.
  - destruct (status_row_unresolved service w Hinv) as (w1 & Hrow & Hinv1 & Hout1).
    destruct (IH w1 Hinv1) as (w2 & Hrows & Hinv2 & Hout2).
    exists w2. cbn [for_each map]. rewrite (run_bind_ok _ _ _ _ _ Hrow), Hrows.
    split; [reflexivity|]. split; [exact Hinv2|].
    by rewrite Hout2, Hout1, <- app_assoc.
Qed.

Lemma status_unresolved w :
  inv (cloud w) ->
  exists w',
    Cli.status w = (Ok tt, w') /\
    stdout w' = stdout w
                ++ [newline +:+ "Service Status:"; repeat_string "-" 50]
                ++ map not_found_row ["signaling"; "coturn"; "frp"; "thingsboard"; "nat"]
                ++ [repeat_string "-" 50].
Proof.
  intros Hinv. unfold Cli.status. cbv zeta.
  rewrite !run_print.
  destruct (rows_unresolved ["signaling"; "coturn"; "frp"; "thingsboard"; "nat"]
              (say (repeat_string "-" 50) (say (newline +:+ "Service Status:") w)) Hinv)
    as (w1 & Hrows & _ & Hout).
  rewrite (run_bind_ok _ _ _ _ _ Hrows).
  eexists. split; [reflexivity|]. cbn [print stdout]. rewrite Hout. cbn [say stdout].
  by rewrite <- !app_assoc.
Qed.

End StatusUnresolved.

Section CliMain.
Context {Cloud : Type} `{Ec2Client Cloud}.
Implicit Types w : World Cloud.

(** Property X5.  When no lookup by tag finds an instance, in the state the
    report starts from and in those the lookups lead to, [status] returns
    without an exception and prints, between its header and its rule, the
    five rows with [not found] in both columns. *)
Theorem status_reports_not_found :
  forall (inv : Cloud -> Prop) w,
    (forall c tag states, inv c ->
       exists c', describe_instances (Filters tag states) c = (Returns [], c') /\ inv c') ->
    inv (cloud w) ->
    exists w',
      Cli.status w = (Ok tt, w') /\
      stdout w' = stdout w
                  ++ [newline +:+ "Service Status:"; repeat_string "-" 50]
                  ++ map not_found_row ["signaling"; "coturn"; "frp"; "thingsboard"; "nat"]
                  ++ [repeat_string "-" 50].
Proof. intros inv w Hnothing Hinv. by apply (status_unresolved inv). Qed.

(** Property X6.  [failover] and [failback] without the name of a service are
    invalid commands: the program prints [Invalid command: <command>],
    issues no call and exits with status 1, as for an unknown command. *)
Theorem command_without_service_is_invalid :
  forall prog command w,
    command = "failover" \/ command = "failback" ->
    Cli.main [prog; command] w
      = (Raise (SystemExit 1), say ("Invalid command: " +:+ command) w) /\
    exit_status (Cli.main [prog; command] w).1 = 1.
Proof. intros prog command w [->| ->]; by split. Qed.

(** Property X7.  The commands [failover <service>] and [failback <service>]
    show the status after the operation whatever it returned: the outcome
    of the program is the outcome of [status] in the world the operation
    left, so a failover that returned [False] and a status that returns
    exit with status 0. *)
Theorem exit_status_ignores_the_verdict :
  forall prog service more verdict w w1,
    (Cli.failover service w = (Ok verdict, w1) ->
     let argv := prog :: "failover" :: service :: more in
     Cli.main argv w = Cli.status w1 /\
     (forall w2, Cli.status w1 = (Ok tt, w2) -> exit_status (Cli.main argv w).1 = 0)) /\
    (Cli.failback service w = (Ok verdict, w1) ->
     let argv := prog :: "failback" :: service :: more in
     Cli.main argv w = Cli.status w1 /\
     (forall w2, Cli.status w1 = (Ok tt, w2) -> exit_status (Cli.main argv w).1 = 0)).
Proof.
  intros prog service more verdict w w1.
  split; intros Hrun argv;
    (assert (Cli.main argv w = Cli.status w1) as Hmain;
     [ unfold argv, Cli.main; cbn [length Nat.ltb Nat.leb nth]; cbv zeta;
       repeat match goal with
              | |- context [String.eqb ?a ?b] =>
                  let v := eval vm_compute in (String.eqb a b) in
                  change (String.eqb a b) with v
              end;
       cbn [andb]; by rewrite (run_bind_ok _ _ _ _ _ Hrun)
     | split; [exact Hmain | intros w2 Hstatus; by rewrite Hmain, Hstatus] ]).
Qed.

End CliMain.

(** ** The alarm handler *)

Section FixedMore.
Context {Cloud : Type} `{Ec2Client Cloud} `{Elbv2Client Cloud} `{Builtins}.
Variable environ : gmap string string.
Implicit Types w : World Cloud.

Lemma split_head_spec s :
  exists rest,
    s = split_head "-" s +:+ rest /\
    contains "-" (split_head "-" s) = false /\
    (rest = "" \/ startswith "-" rest = true).
Proof.
  induction s as [|c s (rest & Hs & Hnone & Hrest)].
  - exists "". repeat split. by left.
  - cbn [split_head]. destruct (Ascii.eqb_spec c "-") as [->|Hne].
    + exists (String "-" s). repeat split. by right.
    + exists rest. split; [by rewrite append_cons, <- Hs|]. split; [|exact Hrest].
      cbn [contains startswith]. rewrite Hnone.
      destruct (Ascii.eqb_spec "-" c) as [Heq|_]; [by destruct Hne|reflexivity].
Qed.

(** Property X8.  The service of an alarm is the text of its name before the
    first dash: the name is the service followed by nothing or by a rest
    that starts with a dash, the service holds no dash, and the
    extraction is pure (it leaves the world as it is). *)
Theorem service_is_the_text_before_the_first_dash :
  forall alarm w,
    exists service rest,
      Fixed.service_of_alarm (JStr alarm) w = (Ok service, w) /\
      alarm = service +:+ rest /\
      contains "-" service = false /\
      (rest = "" \/ startswith "-" rest = true).
Proof.
  intros alarm w. destruct (split_head_spec alarm) as (rest & Hs & Hnone & Hrest).
  by exists (split_head "-" alarm), rest.
Qed.

(** Every path of the handler, down to the routing update. *)
Ltac handler_paths event alarm :=
  unfold Fixed.handler, Fixed.service_of_alarm;
  let name := fresh "name" in
  destruct (Fixed.parse_alarm_name event) as [name|];
    [ destruct name as [|?|?|alarm|?|?] | ]; run;
    try (destruct (environ !! ("BACKUP_" +:+ upper (split_head "-" alarm)))
           as [[|? ?]|]; run;
         repeat api_case;
         try (destruct (environ !! ("TG_" +:+ upper (split_head "-" alarm)))
                as [[|? ?]|]; run);
         try match goal with
             | |- context [Fixed.update_target_group ?t ?p ?q ?w0] =>
                 let Hrun := fresh "Hrun" in
                 destruct (update_target_group_total t p q w0)
                   as ([? ? ?] & ? & ? & Hrun & _); rewrite Hrun; run
             end).

(** Property X9.  Whenever the handler returns, its status code is one of 200,
    400, 404 and 500, and it is 400 exactly when the alarm name could
    not be read from the event. *)
Theorem alarm_handler_status_codes :
  forall event w resp w',
    Fixed.handler environ event w = (Ok resp, w') ->
    statusCode resp ∈ status_codes /\
    (statusCode resp = 400 <-> Fixed.parse_alarm_name event = None).
Proof.
  intros event [c0 l0 o0] resp w'. handler_paths event alarm.
  all: intros Hret; simplify_eq; cbn [statusCode];
    (split;
     [ cbv [status_codes];
       repeat first [ apply list_elem_of_here | apply list_elem_of_further ]
     | split; intros; first [ done | discriminate ] ]).
Qed.

(** Property X10.  An alarm name that is not a string (a number, [null], a list)
    is not caught: the handler raises the [AttributeError] of [split],
    after its two lines of output and before any call; and this is the
    only way the handler raises. *)
Theorem alarm_name_that_is_no_string_raises :
  (forall event name w,
     Fixed.parse_alarm_name event = Some name ->
     (forall s, name <> JStr s) ->
     Fixed.handler environ event w
       = (Raise (PyException ("'" +:+ type_name name
                              +:+ "' object has no attribute 'split'")),
          say ("Alarm triggered: " +:+ format_value name)
              (say ("Received event: " +:+ json_dumps event) w)))
  /\
  (forall event w e w',
     Fixed.handler environ event w = (Raise e, w') ->
     exists name,
       Fixed.parse_alarm_name event = Some name /\
       (forall s, name <> JStr s) /\ calls w' = calls w).
Proof.
  split.
  - intros event name w Hparse Hname. unfold Fixed.handler. rewrite Hparse.
    destruct name as [|?|?|s|?|?]; try reflexivity. by destruct (Hname s).
  - intros event [c0 l0 o0] e w'. handler_paths event alarm.
    all: intros Hret; simplify_eq; by eexists.
Qed.

(** Property X11.  A message without [AlarmName] is read as the empty alarm
    name, hence as the service with the empty name: the handler looks up
    the entry [BACKUP_], and without it answers 404 for a backup without
    a name, issuing no call. *)
Theorem missing_alarm_name_is_the_empty_service :
  forall event records record sns text fields w,
    getitem "Records" event = Some records ->
    getitem0 records = Some record ->
    getitem "Sns" record = Some sns ->
    getitem "Message" sns = Some (JStr text) ->
    json_loads text = Some (JObj fields) ->
    assoc "AlarmName" fields = None ->
    Fixed.parse_alarm_name event = Some (JStr "") /\
    (environ !! "BACKUP_" = None ->
     exists w',
       Fixed.handler environ event w
         = (Ok {| statusCode := 404; body := "No backup for " |}, w') /\
       calls w' = calls w).
Proof.
  intros event records record sns text fields w Hrecords Hrecord Hsns Hmessage Hloads Hname.
  assert (Fixed.parse_alarm_name event = Some (JStr "")) as Hparse.
  { unfold Fixed.parse_alarm_name.
    rewrite Hrecords; cbn [mbind option_bind]. rewrite Hrecord; cbn [mbind option_bind].
    rewrite Hsns; cbn [mbind option_bind]. rewrite Hmessage; cbn [mbind option_bind].
    rewrite Hloads; cbn [mbind option_bind]. by rewrite Hname. }
  split; [exact Hparse|]. intros Hb.
  destruct (handler_no_backup environ event "" w Hparse Hb) as (w' & Hrun & Hcalls & _).
  by exists w'.
Qed.




(** Property X15.  The routing update goes through the calls deregister the
    primary, describe the target group, register the backup, in this
    order, and never raises.  The registration does not depend on the
    deregistration: whatever that call did, when the description returns
    a group with a port, the backup is registered on the port of the
    first group. *)
Theorem routing_update_registers_after_deregistering :
  (forall tg p b w,
     exists w' o1 o2 rest,
       Fixed.update_target_group tg p b w = (Ok tt, w') /\
       calls w' = calls w ++ (DeregisterTargets tg [p], o1)
                             :: (DescribeTargetGroups [tg], o2) :: rest /\
       (rest = [] \/ exists port o3, rest = [(RegisterTargets tg [(b, port)], o3)]))
  /\
  (forall tg p b w r1 c1 g gs c2 port,
     deregister_targets tg [p] (cloud w) = (r1, c1) ->
     describe_target_groups [tg] c1 = (Returns (g :: gs), c2) ->
     Port g = Some port ->
     exists w' o3,
       Fixed.update_target_group tg p b w = (Ok tt, w') /\
       calls w' = calls w ++ [ (DeregisterTargets tg [p], outcome_of r1);
                               (DescribeTargetGroups [tg], Returned);
                               (RegisterTargets tg [(b, port)], o3) ]).
Proof.
  split.
  - intros tg p b [c0 l0 o0]. unfold Fixed.update_target_group. run.
    repeat api_case;
      (eexists _, _, _, _; split; [reflexivity|]; cbv [calls];
       rewrite <- ?app_assoc; split; [reflexivity|]; cbn [app];
       first [ by left | right; by eexists _, _ ]).
  - intros tg p b [c0 l0 o0] r1 c1 g gs c2 port Hdereg Hdesc Hport.
    cbn [cloud] in Hdereg. unfold Fixed.update_target_group. run.
    rewrite Hdereg. destruct r1 as [[]|m1]; run; rewrite Hdesc; run; rewrite Hport; run;
      api_case; (eexists _, _; split; [reflexivity|]; cbv [calls];
                 by rewrite <- ?app_assoc).
Qed.

End FixedMore.

(** ** The permissive handler *)

Section QuickMore.
Context {Cloud : Type} `{Ec2Client Cloud} `{Elbv2Client Cloud} `{Builtins}.
Variable environ : gmap string string.
Implicit Types w : World Cloud.


(** Property X16.  The permissive handler always returns: it never raises, its
    status code is 200, 404 or 500, and it only looks up, stops and starts
    instances; it never waits for the backup and never touches a routing
    target. *)
Theorem permissive_handler_outcomes :
  forall event w,
    exists resp w' log,
      QuickFix.handler environ event w = (Ok resp, w') /\
      statusCode resp ∈ [200; 404; 500] /\
      calls w' = calls w ++ log /\
      Forall (fun e => lookup_stop_start e.1) log.
Proof.
  intros event [c0 l0 o0]. unfold QuickFix.handler.
  destruct (QuickFix.triggered_service event) as [[|sc s]|]; run;
    try (destruct (environ !! ("BACKUP_" +:+ upper (String sc s))) as [[|bc b]|]; run;
         repeat api_case).
  all: eexists _, _, _; split; [reflexivity|]; cbn [statusCode]; split;
    [ repeat first [ apply list_elem_of_here | apply list_elem_of_further ] | ];
    cbv [calls]; rewrite <- ?app_assoc;
    (split; [ first [ reflexivity | symmetry; apply app_nil_r ] | ]);
    cbn [app]; forall_log.
Qed.

(** Property X17.  With a running primary, the permissive handler stops it and
    then starts the backup: the start is issued only after the stop
    returned, a stop that raises leaves the backup unstarted, and the
    code is 200 exactly when both returned, 500 otherwise. *)
Theorem permissive_handler_stops_then_starts :
  forall event service b r rs i others c1 w,
    QuickFix.triggered_service event = Some service ->
    environ !! ("BACKUP_" +:+ upper service) = Some b -> b <> "" ->
    describe_instances (Filters (service +:+ "-primary") ["running"]) (cloud w)
      = (Returns (r :: rs), c1) ->
    Instances r = i :: others ->
    let steps := [StopInstances [InstanceId i]; StartInstances [b]] in
    exists resp w' log,
      QuickFix.handler environ event w = (Ok resp, w') /\
      calls w' = calls w
                 ++ (DescribeInstances (Filters (service +:+ "-primary") ["running"]),
                     Returned) :: log /\
      follows steps log /\
      (statusCode resp = 200 <-> log = completed steps) /\
      (log <> completed steps -> statusCode resp = 500).
Proof.
  intros event service b r rs i others c1 [c0 l0 o0] Hs Hb Nb Hdesc Hinst steps.
  cbn [cloud] in Hdesc.
  pose proof (services_truthy service (find_service_in _ _ Hs)) as Htruthy.
  unfold QuickFix.handler. rewrite Hs. destruct service as [|sc s]; [discriminate|].
  run. rewrite Hb. destruct b as [|bc b]; [done|]. run. rewrite Hdesc. run.
  rewrite Hinst. run. unfold steps.
  destruct (stop_instances _ _) as [[[]|m1] c2]; run;
    [ destruct (start_instances _ _) as [[[]|m2] c3]; run | ].
  - eexists _, _, _. name_log. split; [by cbn|]. split; [by cbn|]. intros Hne. by destruct Hne.
  - eexists _, _, _. name_log. split; [by cbn|].
    split; [split; intros; discriminate | done].
  - eexists _, _, _. name_log. split; [by cbn|].
    split; [split; intros; discriminate | done].
Qed.

Lemma find_first {A} (f : A -> bool) l x :
  find f l = Some x <->
  exists before after,
    l = before ++ x :: after /\ f x = true /\ Forall (fun y => f y = false) before.
Proof.
  induction l as [|y l IH]; cbn [find].
  - split; [discriminate|]. intros ([|? ?] & after & Hl & _); discriminate.
  - destruct (f y) eqn:Hy.
    + split.
      * intros [= ->]. by exists [], l.
      * intros ([|z before] & after & Hl & Hx & Hbefore); simplify_eq/=; [done|].
        apply Forall_cons in Hbefore as [Hz _]. congruence.
    + rewrite IH. split.
      * intros (before & after & -> & Hx & Hbefore).
        exists (y :: before), after. repeat split; [done|]. by constructor.
      * intros ([|z before] & after & Hl & Hx & Hbefore); simplify_eq/=; [congruence|].
        apply Forall_cons in Hbefore as [_ Hbefore]. by exists before, after.
Qed.

(** Property X18.  The first match wins: the scan selects a service exactly when
    the text contains its name and contains the name of no service listed
    before it. *)
Theorem first_listed_service_wins :
  forall text service,
    QuickFix.find_service text = Some service <->
    exists before after,
      QuickFix.services = before ++ service :: after /\
      contains service text = true /\
      Forall (fun earlier => contains earlier text = false) before.
Proof.
  intros text service.
  exact (find_first (fun s => contains s text) QuickFix.services service).
Qed.

End QuickMore.

(** ** The further properties on the test doubles *)

Section MoreRuns.
Import Fixture.

Lemma get_instance_id_first_match_witness :
  Cli.get_instance_id "signaling-primary" (boot site)
  = (Ok (Some "i-sig-1"),
     mkWorld site [(tag_lookup "signaling-primary", Returned)] []).
Proof.
  apply (get_instance_id_first_match (Cloud:=Fake) "signaling-primary" (boot site)
           (Returns [ {| Instances := [instance "i-sig-1" "running"] |} ]) site).
  vm_compute. reflexivity.
Defined.

Lemma cli_mutates_only_after_both_lookups_witness :
  let log := calls (after (Cli.failover "signaling") (boot site)) in
  Exists (fun e => mutating e.1 = true) log /\
  exists rest,
    log = (tag_lookup ("signaling" +:+ "-primary"), Returned)
          :: (tag_lookup ("signaling" +:+ "-backup"), Returned) :: rest.
Proof.
  intros log.
  assert (Exists (fun e => mutating e.1 = true) log) as Hmutating.
  { vm_compute. do 2 apply Exists_cons_tl. apply Exists_cons_hd. reflexivity. }
  split; [exact Hmutating|].
  apply (cli_mutates_only_after_both_lookups (Cloud:=Fake) "signaling" (boot site) log);
    [ left; reflexivity | exact Hmutating ].
Defined.

Lemma cli_aborts_when_either_instance_is_unresolved_witness :
  let w := boot site in
  let w1 := after (Cli.get_instance_id "frp-primary") w in
  let w2 := after (Cli.get_instance_id "frp-backup") w1 in
  let w' := say "Error: Could not find instances for frp" w2 in
  Cli.failover "frp" w = (Ok false, w') /\
  Cli.failback "frp" w = (Ok false, w').
Proof.
  intros w w1 w2 w'.
  apply (cli_aborts_when_either_instance_is_unresolved (Cloud:=Fake)
           "frp" (Some "i-frp-1") None w w1 w2);
    vm_compute; reflexivity.
Defined.

Lemma status_reports_not_found_witness :
  exists w',
    Cli.status (boot empty_site) = (Ok tt, w') /\
    stdout w' = stdout (boot empty_site)
                ++ [newline +:+ "Service Status:"; repeat_string "-" 50]
                ++ map not_found_row ["signaling"; "coturn"; "frp"; "thingsboard"; "nat"]
                ++ [repeat_string "-" 50].
Proof.
  apply (status_reports_not_found (Cloud:=Fake) (fun c => c = empty_site) (boot empty_site)).
  - intros c tag states ->. exists empty_site. split; reflexivity.
  - reflexivity.
Defined.

Lemma command_without_service_is_invalid_witness :
  let argv := ["failover-automation.py"; "failover"] in
  let w := boot site in
  Cli.main argv w = (Raise (SystemExit 1), say "Invalid command: failover" w) /\
  exit_status (Cli.main argv w).1 = 1.
Proof.
  intros argv w.
  apply (command_without_service_is_invalid (Cloud:=Fake)
           "failover-automation.py" "failover" w).
  left. reflexivity.
Defined.

Lemma exit_status_ignores_the_verdict_witness :
  let w := boot site in
  let w1 := after (Cli.failover "frp") w in
  let argv := ["failover-automation.py"; "failover"; "frp"] in
  Cli.failover "frp" w = (Ok false, w1) /\
  Cli.main argv w = Cli.status w1 /\
  exit_status (Cli.main argv w).1 = 0.
Proof.
  intros w w1 argv.
  assert (Cli.failover "frp" w = (Ok false, w1)) as Hrun by (vm_compute; reflexivity).
  split; [exact Hrun|].
  destruct (proj1 (exit_status_ignores_the_verdict (Cloud:=Fake)
                     "failover-automation.py" "frp" [] false w w1) Hrun)
    as [Hmain Hexit].
  split; [exact Hmain|].
  apply (Hexit (after Cli.status w1)). vm_compute. reflexivity.
Defined.

Lemma alarm_handler_status_codes_witness :
  let w := boot site in
  let event := sns_event "signaling-health-check" in
  let resp := {| statusCode := 200;
                 body := json_dumps (JStr "Failover complete for signaling") |} in
  Fixed.handler environment event w = (Ok resp, after (Fixed.handler environment event) w) /\
  statusCode resp ∈ status_codes /\
  (statusCode resp = 400 <-> Fixed.parse_alarm_name event = None).
Proof.
  intros w event resp.
  assert (Fixed.handler environment event w
          = (Ok resp, after (Fixed.handler environment event) w)) as Hrun
    by (vm_compute; reflexivity).
  split; [exact Hrun|].
  exact (alarm_handler_status_codes (Cloud:=Fake) environment event w resp _ Hrun).
Defined.

Lemma alarm_name_that_is_no_string_raises_witness :
  let w := boot site in
  let event := sns_event_of message_with_numeric_alarm_name in
  @Fixed.handler Fake fake_ec2 fake_elbv2 builtins_more environment event w
  = (Raise (PyException "'int' object has no attribute 'split'"),
     say "Alarm triggered: 42" (say ("Received event: " +:+ dumps event) w)).
Proof.
  intros w event.
  apply (proj1 (@alarm_name_that_is_no_string_raises Fake fake_ec2 fake_elbv2
                  builtins_more environment) event (JNum 42) w);
    [ vm_compute; reflexivity | discriminate ].
Defined.

Lemma missing_alarm_name_is_the_empty_service_witness :
  let w := boot site in
  let event := sns_event_of message_without_alarm_name in
  @Fixed.parse_alarm_name builtins_more event = Some (JStr "") /\
  exists w',
    @Fixed.handler Fake fake_ec2 fake_elbv2 builtins_more environment event w
      = (Ok {| statusCode := 404; body := "No backup for " |}, w') /\
    calls w' = calls w.
Proof.
  intros w event.
  destruct (@missing_alarm_name_is_the_empty_service Fake fake_ec2 fake_elbv2
              builtins_more environment event
              (JList [JObj [("EventSource", JStr "aws:sns");
                            ("Sns", JObj [("Message",
                                           JStr (dumps message_without_alarm_name))])]])
              (JObj [("EventSource", JStr "aws:sns");
                     ("Sns", JObj [("Message", JStr (dumps message_without_alarm_name))])])
              (JObj [("Message", JStr (dumps message_without_alarm_name))])
              (dumps message_without_alarm_name)
              [("NewStateValue", JStr "ALARM")] w
              ltac:(reflexivity) ltac:(reflexivity) ltac:(reflexivity)
              ltac:(reflexivity) ltac:(vm_compute; reflexivity) ltac:(reflexivity))
    as [Hparse Hrun].
  split; [exact Hparse|]. apply Hrun. vm_compute. reflexivity.
Defined.




Lemma routing_update_registers_after_deregistering_witness :
  let w := boot site in
  let c1 := (deregister_targets "tg-signaling" ["i-sig-1"] site).2 in
  exists w' o3,
    Fixed.update_target_group "tg-signaling" "i-sig-1" "i-sig-2" w = (Ok tt, w') /\
    calls w' = calls w ++ [ (DeregisterTargets "tg-signaling" ["i-sig-1"], Returned);
                            (DescribeTargetGroups ["tg-signaling"], Returned);
                            (RegisterTargets "tg-signaling" [("i-sig-2", 8443)], o3) ].
Proof.
  intros w c1.
  apply (proj2 (routing_update_registers_after_deregistering (Cloud:=Fake))
           "tg-signaling" "i-sig-1" "i-sig-2" w (Returns tt) c1
           {| Port := Some 8443 |} [] c1 8443);
    vm_compute; reflexivity.
Defined.

Lemma permissive_handler_stops_then_starts_witness :
  let w := boot site_stop_outage in
  let event := JObj [("service", JStr "coturn")] in
  let steps := [StopInstances ["i-cot-1"]; StartInstances ["i-cot-2"]] in
  exists resp w' log,
    QuickFix.handler environment event w = (Ok resp, w') /\
    calls w' = calls w
               ++ (DescribeInstances (Filters "coturn-primary" ["running"]), Returned)
                  :: log /\
    follows steps log /\
    (statusCode resp = 200 <-> log = completed steps) /\
    (log <> completed steps -> statusCode resp = 500).
Proof.
  intros w event steps.
  apply (permissive_handler_stops_then_starts (Cloud:=Fake) environment event
           "coturn" "i-cot-2" {| Instances := [instance "i-cot-1" "running"] |} []
           (instance "i-cot-1" "running") [] site_stop_outage w);
    first [ discriminate | vm_compute; reflexivity ].
Defined.

(** On the site with the outage, the stop raises and nothing is started. *)
Example stop_outage_leaves_the_backup_unstarted :
  let run := QuickFix.handler environment (JObj [("service", JStr "coturn")])
                              (boot site_stop_outage) in
  statusCode <$> (match run.1 with Ok resp => Some resp | Raise _ => None end) = Some 500
  /\ map fst (calls run.2)
     = [ DescribeInstances (Filters "coturn-primary" ["running"]);
         StopInstances ["i-cot-1"] ].
Proof. split; vm_compute; reflexivity. Qed.

End MoreRuns.

(** ** Bulk commands, the alternate name, and the environment *)

Section BulkAndEnvironment.
Context {Cloud : Type} `{Ec2Client Cloud} `{Elbv2Client Cloud} `{Builtins}.
Implicit Types w : World Cloud.

Lemma for_each_aborts {A} (body : A -> M Cloud unit) before x after w w1 e w2 :
  for_each before body w = (Ok tt, w1) ->
  body x w1 = (Raise e, w2) ->
  for_each (before ++ x :: after) body w = (Raise e, w2).
Proof.
  revert w. induction before as [|y before IH]; intros w Hbefore Hx.
  - cbn [for_each] in Hbefore. injection Hbefore as ->.
    cbn [app for_each]. by rewrite run_bind, Hx.
  - cbn [app for_each] in *. rewrite run_bind in *.
    destruct (body y w) as [[[]|e'] w']; [|discriminate]. by apply IH.
Qed.

(** Property X19.  [failover-all] goes through the four services in the
    order of its list and goes on after a service whose failover returned
    [False]; an exception in the failover of one service ends the program
    there: the services after it are not attempted and no status is
    shown.  When all four return, the status follows. *)
Theorem bulk_failover_stops_at_the_first_exception :
  (forall prog before service after w w1 e w2,
     ["signaling"; "coturn"; "frp"; "thingsboard"] = before ++ service :: after ->
     for_each before (fun s => Cli.failover s;; mret tt) w = (Ok tt, w1) ->
     Cli.failover service w1 = (Raise e, w2) ->
     Cli.main [prog; "failover-all"] w = (Raise e, w2))
  /\
  (forall prog w v1 w1 v2 w2 v3 w3 v4 w4,
     Cli.failover "signaling" w = (Ok v1, w1) ->
     Cli.failover "coturn" w1 = (Ok v2, w2) ->
     Cli.failover "frp" w2 = (Ok v3, w3) ->
     Cli.failover "thingsboard" w3 = (Ok v4, w4) ->
     Cli.main [prog; "failover-all"] w = Cli.status w4).
Proof.
  split.
  - intros prog before service after w w1 e w2 Hlist Hbefore Hservice.
    unfold Cli.main. cbn [length Nat.ltb Nat.leb nth]. cbv zeta.
    repeat match goal with
           | |- context [String.eqb ?a ?b] =>
               let v := eval vm_compute in (String.eqb a b) in
               change (String.eqb a b) with v
           end.
    cbn [andb]. rewrite Hlist, run_bind.
    rewrite (for_each_aborts _ before service after w w1 e w2 Hbefore); [reflexivity|].
    by rewrite run_bind, Hservice.
  - intros prog w v1 w1 v2 w2 v3 w3 v4 w4 H1' H2' H3' H4'.
    unfold Cli.main. cbn [length Nat.ltb Nat.leb nth]. cbv zeta.
    repeat match goal with
           | |- context [String.eqb ?a ?b] =>
               let v := eval vm_compute in (String.eqb a b) in
               change (String.eqb a b) with v
           end.
    cbn [andb for_each]. rewrite run_bind, run_bind, run_bind, H1'.
    cbn [mret M_ret ret]. rewrite run_bind, run_bind, H2'.
    cbn [mret M_ret ret]. rewrite run_bind, run_bind, H3'.
    cbn [mret M_ret ret]. rewrite run_bind, run_bind, H4'.
    reflexivity.
Qed.

Lemma not_the_alternate_name service :
  service +:+ "-primary" <> "nat-secondary" /\ service +:+ "-backup" <> "nat-secondary".
Proof.
  split; intros Heq;
    repeat (destruct service as [|? service];
            [ by vm_compute in Heq
            | rewrite append_cons in Heq; injection Heq as -> Heq ]);
    (destruct service; [ by vm_compute in Heq | by rewrite append_cons in Heq ]).
Qed.

(** Property X20.  The alternate name belongs to the row of nat alone:
    the row of any other service never looks up [nat-secondary]. *)
Theorem only_nat_uses_the_alternate_name :
  forall service,
    service <> "nat" ->
    only (Cloud:=Cloud) (fun c => c <> tag_lookup "nat-secondary") (Cli.status_row service).
Proof.
  intros service Hservice.
  destruct (not_the_alternate_name service) as [Hprimary Hbackup].
  apply String.eqb_neq in Hservice.
  unfold Cli.status_row, Cli.get_instance_id, Cli.instance_state, ec2_describe_instances.
  rewrite Hservice. cbn [andb].
  follow ltac:(apply only_invoke; unfold tag_lookup; congruence).
Qed.


End BulkAndEnvironment.

Section MoreRunsOfBulk.
Import Fixture.

Lemma bulk_failover_stops_at_the_first_exception_witness :
  let w := boot site_stop_outage in
  Cli.main ["failover-automation.py"; "failover-all"] w
  = (Raise (PyException "RequestLimitExceeded"), after (Cli.failover "signaling") w).
Proof.
  intros w.
  apply (proj1 (bulk_failover_stops_at_the_first_exception (Cloud:=Fake))
           "failover-automation.py" [] "signaling" ["coturn"; "frp"; "thingsboard"]
           w w (PyException "RequestLimitExceeded") (after (Cli.failover "signaling") w));
    [ reflexivity | reflexivity | vm_compute; reflexivity ].
Defined.

Lemma only_nat_uses_the_alternate_name_witness :
  only (Cloud:=Fake) (fun c => c <> tag_lookup "nat-secondary") (Cli.status_row "frp").
Proof.
  apply (only_nat_uses_the_alternate_name (Cloud:=Fake) "frp"). discriminate.
Defined.


End MoreRunsOfBulk.
